(** * The abstract-query compiler, the PostgreSQL driver and the relational
      merge loops of the data layer, embedded in Rocq.

    Each module embeds one source file:
    - [Js]        : the few JavaScript notions the embedded code relies on
                    (completions, primitive parameter values);
    - [DataSql]   : [convertFilter] and the abstract SQL types of
                    [@directus/data-sql];
    - [Driver]    : [DataDriverPostgres] ([getDataFromSource],
                    [queryDatabase], [query]);
    - [ApplyQuery]: [applyFilter] with its nested [addJoins] and
                    [addWhereClauses] (the knex based filter compiler),
                    and the calling of the recorded callbacks when knex
                    compiles the query;
    - [NestedMany]: the nested-relation merge engine;
    - [RunAst]    : the nested-collection loop of [runAst].

    The modules of facts follow the definitions. *)

From Stdlib Require Import ZArith Lia Ascii String List.
From stdpp Require Import base strings list gmap pretty.

Set Warnings "-register-all".
Local Open Scope string_scope.
Local Open Scope list_scope.

(** ** JavaScript notions *)
Module Js.

(** What a call can throw.  [Error] is [new Error(msg)]; [TypeError] is the
    engine's own error for reading a property of [undefined] or calling
    what is no function; [ReferenceError] is its error for reading an
    identifier that is declared nowhere. *)
Inductive Exception : Type :=
| Error (message : string)
| TypeError (message : string)
| ReferenceError (message : string).

(** The outcome of a call: a value, or a thrown exception. *)
Inductive Completion (A : Type) : Type :=
| Return (value : A)
| Throw (exception : Exception).
Arguments Return {A} value.
Arguments Throw {A} exception.

(** [string | boolean | number]: the values of a parameter array.  Numbers
    are kept as integers; no embedded function computes with them. *)
Inductive Primitive : Type :=
| PString (s : string)
| PBoolean (b : bool)
| PNumber (n : Z).

End Js.
Import Js.

(** ** [@directus/data-sql]: [convertFilter] *)
Module DataSql.

(** The filter node of the abstract query.  Its declaration lives in
    [@directus/data]; the constructors carry the properties that
    [convertFilter] reads ([target.type], [target.field], [operation],
    [compareTo.type], [compareTo.values]) and, for the logical node, the
    shape the query graph gives it (an operator over child nodes, without
    [target] or [compareTo]). *)
Record FilterTarget : Type := mkFilterTarget {
  target_type : string;
  target_field : string
}.

Record FilterCompareTo : Type := mkFilterCompareTo {
  compareTo_type : string;
  compareTo_values : list Primitive
}.

Inductive AbstractQueryFilterNode : Type :=
| ConditionNode (target : FilterTarget) (operation : string)
                (compareTo : FilterCompareTo) (negate : bool)
| LogicalNode (operator : string) (childNodes : list AbstractQueryFilterNode).

(** The converted condition: a column of a table compared with the
    parameters found at [parameterIndexes]. *)
Record SqlTarget : Type := mkSqlTarget {
  sql_column : string;
  sql_table : string;
  sql_target_type : string
}.

Record SqlCompareTo : Type := mkSqlCompareTo {
  sql_compare_type : string;
  parameterIndexes : list nat
}.

Record AbstractSqlQueryConditionNode : Type := mkSqlCondition {
  where_type : string;
  where_negate : bool;
  where_operation : string;
  where_target : SqlTarget;
  where_compareTo : SqlCompareTo
}.

(** [Required<Pick<AbstractSqlQuery, 'where' | 'parameters'>>] *)
Record ConvertedFilter : Type := mkConvertedFilter {
  where_ : AbstractSqlQueryConditionNode;
  parameters : list Primitive
}.

(** The clause types of the abstract SQL query (types.ts). *)
Record SqlStatementSelectPrimitive : Type := mkSelectPrimitive {
  select_type : string;
  select_table : string;
  select_column : string;
  select_as : option string
}.

(** Used for parameterized queries: where the actual value is stored in the
    parameter array. *)
Record ParameterIndex : Type := mkParameterIndex {
  parameterIndex : nat
}.

Record AbstractSqlOrder : Type := mkOrder {
  orderBy : string;
  direction : string
}.

(** The statement part of an abstract SQL query, the part the driver hands
    to the statement renderer as [abstractSql.clauses]. *)
Record AbstractSqlClauses : Type := mkClauses {
  clause_select : list SqlStatementSelectPrimitive;
  clause_from : string;
  clause_limit : option ParameterIndex;
  clause_offset : option ParameterIndex;
  clause_order : option (list AbstractSqlOrder);
  clause_where : option AbstractSqlQueryConditionNode
}.

(** The clauses [base] with [condition] as their where-clause. *)
Definition withWhere (base : AbstractSqlClauses)
    (condition : AbstractSqlQueryConditionNode) : AbstractSqlClauses :=
  {| clause_select := clause_select base;
     clause_from := clause_from base;
     clause_limit := clause_limit base;
     clause_offset := clause_offset base;
     clause_order := clause_order base;
     clause_where := Some condition |}.

(** The [Generator<number>] handed to [convertFilter] is a mutable object:
    its state is the next index it would yield, threaded through the
    call. *)
Definition Generator : Type := nat.

Definition isIntersects (operation : string) : bool :=
  String.eqb operation "intersects"
  || String.eqb operation "intersects_bounding_box".

(** Reading [firstParameterIndex] in the body of [convertFilter]: the
    function has the parameters [filter], [collection] and [generator],
    and neither it nor its module declares this identifier. *)
Definition firstParameterIndex : Completion nat :=
  Throw (ReferenceError "firstParameterIndex is not defined").

Definition convertFilter (filter : AbstractQueryFilterNode)
    (collection : string) (generator : Generator)
    : Completion ConvertedFilter * Generator :=
  match filter with
  | LogicalNode _ _ =>
      (* [filter.target] is [undefined], reading [.type] of it throws *)
      (Throw (TypeError "Cannot read properties of undefined (reading 'type')"),
       generator)
  | ConditionNode target operation compareTo _ =>
      if negb (String.eqb (target_type target) "primitive")
         || negb (String.eqb (compareTo_type compareTo) "value")
      then (Throw (Error "Only primitives are currently supported."), generator)
      else if isIntersects operation
      then (Throw (Error "The intersects operators are not yet supported."),
            generator)
      else
        match firstParameterIndex with
        | Throw e => (Throw e, generator)
        | Return index =>
            let parameterIndexes := [index] in
            (Return {|
               where_ := {|
                 where_type := "condition";
                 where_negate := false;
                 where_operation := operation;
                 where_target := {|
                   sql_column := target_field target;
                   sql_table := collection;
                   sql_target_type := "primitive" |};
                 where_compareTo := {|
                   sql_compare_type := "value";
                   parameterIndexes := parameterIndexes |} |};
               parameters := compareTo_values compareTo |},
             generator)
        end
  end.

(** A filter the compiler does not support: a condition on a target
    that is not a primitive, a condition with one of the intersects
    operators, or a logical combinator. *)
Definition unsupported (filter : AbstractQueryFilterNode) : Prop :=
  match filter with
  | ConditionNode target operation _ _ =>
      target_type target ≠ "primitive" ∨ isIntersects operation = true
  | LogicalNode _ _ => True
  end.

End DataSql.
Import DataSql.

(** ** Rows, streams and the world the driver acts on *)
Module Runtime.

(** [Record<string, any>]: the rows that travel through the streams. *)
Inductive Value : Type :=
| VNull
| VPrimitive (p : Primitive)
| VArray (items : list Value)
| VObject (fields : gmap string Value).

Abbreviation Row := (gmap string Value).

(** A client checked out of the [pg.Pool]. *)
Definition PoolClient : Type := nat.

(** What the database saw. *)
Inductive Event : Type :=
| Executed (client : PoolClient) (statement : string)
           (parameters : list Primitive).

(** The pool and the record of the statements sent so far (newest first).
    [reachable] says whether [pool.connect()] resolves. *)
Record World : Type := mkWorld {
  reachable : bool;
  leased : list PoolClient;
  nextClient : PoolClient;
  log : list Event
}.

(** An asynchronous call: it reads and changes the world and either
    resolves or rejects. *)
Definition M (A : Type) : Type := World → Completion A * World.

Definition ret {A} (a : A) : M A := fun w => (Return a, w).

Definition bind {A B} (m : M A) (k : A → M B) : M B :=
  fun w =>
    match m w with
    | (Return a, w') => k a w'
    | (Throw e, w') => (Throw e, w')
    end.

Definition throw {A} (e : Exception) : M A := fun w => (Throw e, w).

Notation "'let*' x ':=' m 'in' k" := (bind m (fun x => k))
  (at level 10, x name, m at level 100, k at level 200).

(** [poolClient.release()] *)
Definition release (client : PoolClient) (w : World) : World :=
  {| reachable := reachable w;
     leased := List.filter (fun c => negb (Nat.eqb c client)) (leased w);
     nextClient := nextClient w;
     log := log w |}.

(** [pool.connect()] *)
Definition connect : M PoolClient :=
  fun w =>
    if reachable w
    then (Return (nextClient w),
          {| reachable := reachable w;
             leased := nextClient w :: leased w;
             nextClient := S (nextClient w);
             log := log w |})
    else (Throw (Error "connect ECONNREFUSED"), w).

Definition record (e : Event) (w : World) : World :=
  {| reachable := reachable w;
     leased := leased w;
     nextClient := nextClient w;
     log := e :: log w |}.

(** The callbacks the driver registers on a stream. *)
Inductive Listener : Type :=
| Release (client : PoolClient).

Definition runListener (l : Listener) (w : World) : World :=
  match l with Release client => release client w end.

(** A stream of rows: the chunks it delivers, the error that ends it early
    (if any), and the listeners registered on the underlying Node stream
    by event name. *)
Record RowStream : Type := mkStream {
  chunks : list Row;
  failure : option Exception;
  listeners : list (string * Listener)
}.

(** [stream.emit(event)]: the listeners of [event] run in registration
    order. *)
Definition emit (event : string) (s : RowStream) (w : World) : World :=
  foldl (fun w '(name, l) => if String.eqb name event then runListener l w else w)
        w (listeners s).

(** The ways a cursor is left.  A Node [Readable] emits ['end'] once its
    data is exhausted and ['error'] when it fails; ['close'] follows each
    of them.  A consumer that cancels the web stream made by
    [Readable.toWeb] before the end has the underlying [Readable]
    destroyed with the reason of the cancellation, or with an [AbortError]
    when there is none; a [Readable] destroyed with an error emits
    ['error'] and then ['close']. *)
Inductive Exit : Type :=
| EndOfData
| ClosedByConsumer
| Failed.

Definition emitted (e : Exit) : list string :=
  match e with
  | EndOfData => ["end"; "close"]
  | Failed => ["error"; "close"]
  | ClosedByConsumer => ["error"; "close"]
  end.

(** The events [events] emitted in turn on a stream. *)
Definition emitAll (events : list string) (s : RowStream) (w : World) : World :=
  foldl (fun w event => emit event s w) w events.

Definition finish (e : Exit) (s : RowStream) (w : World) : World :=
  emitAll (emitted e) s w.

(** Reading a stream up to its end: the chunks, then ['end'] or
    ['error']. *)
Definition readToEnd (s : RowStream) : M (list Row) :=
  fun w =>
    match failure s with
    | None => (Return (chunks s), finish EndOfData s w)
    | Some e => (Throw e, finish Failed s w)
    end.

(** The abstract SQL query the driver executes, with the descriptors of
    its nested-many relations.  [queryGenerator] builds the sub-query for
    the identifier values of one parent row. *)
Inductive AbstractSqlQuery : Type :=
| mkQuery (clauses : AbstractSqlClauses) (parameters : list Primitive)
          (aliasMapping : gmap string (list string))
          (nestedManys : list AbstractSqlNestedMany)
with AbstractSqlNestedMany : Type :=
| mkNestedMany (internalIdentifierFields : list string) (collection : string)
               (externalKeyFields : list string) (alias : string)
               (queryGenerator : list Value → AbstractSqlQuery).

Definition clauses (a : AbstractSqlQuery) : AbstractSqlClauses :=
  match a with mkQuery c _ _ _ => c end.
Definition query_parameters (a : AbstractSqlQuery) : list Primitive :=
  match a with mkQuery _ p _ _ => p end.
Definition aliasMapping (a : AbstractSqlQuery) : gmap string (list string) :=
  match a with mkQuery _ _ m _ => m end.
Definition nestedManys (a : AbstractSqlQuery) : list AbstractSqlNestedMany :=
  match a with mkQuery _ _ _ n => n end.

Definition internalIdentifierFields (n : AbstractSqlNestedMany) : list string :=
  match n with mkNestedMany f _ _ _ _ => f end.
Definition collection (n : AbstractSqlNestedMany) : string :=
  match n with mkNestedMany _ c _ _ _ => c end.
Definition externalKeyFields (n : AbstractSqlNestedMany) : list string :=
  match n with mkNestedMany _ _ f _ _ => f end.
Definition alias (n : AbstractSqlNestedMany) : string :=
  match n with mkNestedMany _ _ _ a _ => a end.
Definition queryGenerator (n : AbstractSqlNestedMany)
    : list Value → AbstractSqlQuery :=
  match n with mkNestedMany _ _ _ _ g => g end.

End Runtime.
Import Runtime.

(** ** The nested-relation merge engine ([nested-many.js]) *)
Module NestedMany.

(** The body of [makeSubQueriesAndMergeWithRoot] is missing: the
    repository's files hold its test and its caller only.  The
    definitions of this module follow section 4.5 of the specification.
    One sub-query is issued per parent row, as in the test of the
    function. *)

(** Modelled from the spec: the error of a merge, raised for a parent row
    on which a parent key field is missing or null. *)
Definition MergeError (field : string) : Exception :=
  Error ("MergeError: missing value for " +:+ field).

(** Modelled from the spec: the values of the parent key fields of a
    row, in the order of the fields. *)
Fixpoint parentKeyValues (fields : list string) (row : Row)
    : Completion (list Value) :=
  match fields with
  | [] => Return []
  | field :: rest =>
      match row !! field with
      | None | Some VNull => Throw (MergeError field)
      | Some v =>
          match parentKeyValues rest row with
          | Return vs => Return (v :: vs)
          | Throw e => Throw e
          end
      end
  end.

Section Merge.

Variable queryDatabase : AbstractSqlQuery → M RowStream.

(** Modelled from the spec: one descriptor resolved for one parent.  The
    parent key values are read from the row, the query builder of the
    descriptor is called with them, the child statement is executed
    through [queryDatabase] and read to its end, and the child rows are
    attached to the parent under the alias of the descriptor (the test of
    the function expects them under the descriptor's collection; the
    wording of the specification is followed). *)
Definition attach (row : Row) (nestedMany : AbstractSqlNestedMany) : M Row :=
  match parentKeyValues (internalIdentifierFields nestedMany) row with
  | Throw e => throw e
  | Return keys =>
      let* subStream := queryDatabase (queryGenerator nestedMany keys) in
      let* children := readToEnd subStream in
      ret (<[alias nestedMany := VArray (VObject <$> children)]> row)
  end.

(** Modelled from the spec: the descriptors of one parent resolved one
    after the other. *)
Fixpoint attachAll (row : Row) (nestedManys : list AbstractSqlNestedMany)
    : M Row :=
  match nestedManys with
  | [] => ret row
  | nestedMany :: rest =>
      let* row' := attach row nestedMany in
      attachAll row' rest
  end.

(** Modelled from the spec: the parent rows merged in the order of the
    root stream; the first error aborts the whole merge. *)
Fixpoint mergeRows (rows : list Row) (nestedManys : list AbstractSqlNestedMany)
    : M (list Row) :=
  match rows with
  | [] => ret []
  | row :: rest =>
      let* row' := attachAll row nestedManys in
      let* out := mergeRows rest nestedManys in
      ret (row' :: out)
  end.

(** A sub-query run for one parent: the key values were read from [row],
    the statement built from them was executed in [w0] and delivered
    [children] up to its end. *)
Definition ranFor (nestedMany : AbstractSqlNestedMany) (row : Row)
    (children : list Row) : Prop :=
  ∃ keys w0 subStream w1,
    parentKeyValues (internalIdentifierFields nestedMany) row = Return keys
    ∧ queryDatabase (queryGenerator nestedMany keys) w0 = (Return subStream, w1)
    ∧ failure subStream = None
    ∧ chunks subStream = children.

(** The database answers every statement with a stream that ends
    normally. *)
Definition alwaysAnswers : Prop :=
  ∀ abstractSql w, ∃ subStream w',
    queryDatabase abstractSql w = (Return subStream, w')
    ∧ failure subStream = None.

End Merge.

(** Modelled from the spec: the merged stream.  The root stream is left
    through ['end'] (or ['error'] when it fails after its last chunk); an
    aborted merge cancels it. *)
Definition makeSubQueriesAndMergeWithRoot (rootStream : RowStream)
    (nestedManys : list AbstractSqlNestedMany)
    (queryDatabase : AbstractSqlQuery → M RowStream) : M RowStream :=
  fun w =>
    match mergeRows queryDatabase (chunks rootStream) nestedManys w with
    | (Throw e, w') => (Throw e, finish ClosedByConsumer rootStream w')
    | (Return out, w') =>
        match failure rootStream with
        | Some e => (Throw e, finish Failed rootStream w')
        | None =>
            (Return {| chunks := out; failure := None; listeners := [] |},
             finish EndOfData rootStream w')
        end
    end.

(** Rows that agree on every field that is not the alias of a
    descriptor. *)
Definition sameParent (nestedManys : list AbstractSqlNestedMany)
    (row row' : Row) : Prop :=
  ∀ field, field ∉ alias <$> nestedManys → row' !! field = row !! field.

(** A row on which every parent key of every descriptor can be read. *)
Definition hasParentKeys (nestedManys : list AbstractSqlNestedMany)
    (row : Row) : Prop :=
  ∀ nestedMany field,
    nestedMany ∈ nestedManys →
    field ∈ internalIdentifierFields nestedMany →
    ∃ v, row !! field = Some v ∧ v ≠ VNull.

End NestedMany.

(** ** [DataDriverPostgres] *)
Module Driver.

(** [ParameterizedSqlStatement] *)
Record ParameterizedSqlStatement : Type := mkStatement {
  statement : string;
  parameters : list Primitive
}.

(** What a cursor delivers for a statement: its rows and, when the cursor
    fails, the error that follows them. *)
Record CursorData : Type := mkCursorData {
  delivered : list Row;
  cursorError : option Exception
}.

Section WithCollaborators.

(** The collaborators of the driver that live in other packages:
    the query compiler [convertQuery] and the merge engine
    [makeSubQueriesAndMergeWithRoot] of [@directus/data-sql], the statement
    renderer [convertToActualStatement] and [convertParameters], the
    expander factory [getExpander] (the transform is taken to be total on
    rows), and the database behind the pool. *)
Variable AbstractQuery : Type.
Variable convertQuery : AbstractQuery → Completion AbstractSqlQuery.
Variable makeSubQueriesAndMergeWithRoot :
  RowStream → list AbstractSqlNestedMany
  → (AbstractSqlQuery → M RowStream) → M RowStream.
Variable convertToActualStatement : AbstractSqlClauses → Completion string.
Variable convertParameters : list Primitive → Completion (list Primitive).
Variable getExpander : gmap string (list string) → Completion (Row → Row).
Variable database : string → list Primitive → Completion CursorData.

(** Opens a stream for the given SQL statement. *)
Definition getDataFromSource (sql : ParameterizedSqlStatement) : M RowStream :=
  fun w =>
    match connect w with
    | (Throw _, w') => (Throw (Error "Failed to query the database: "), w')
    | (Return poolClient, w1) =>
        (* new QueryStream(...); poolClient.query(queryStream) *)
        match database (statement sql) (parameters sql) with
        | Throw _ => (Throw (Error "Failed to query the database: "), w1)
        | Return data =>
            (Return {|
               chunks := delivered data;
               failure := cursorError data;
               listeners := [("end", Release poolClient);
                             ("error", Release poolClient)] |},
             record (Executed poolClient (statement sql) (parameters sql)) w1)
        end
    end.

(** [stream.pipeThrough(ormExpander)] *)
Definition pipeThrough (stream : RowStream) (expander : Row → Row) : RowStream :=
  {| chunks := expander <$> chunks stream;
     failure := failure stream;
     listeners := listeners stream |}.

(** The statement and the parameters [queryDatabase] sends for an abstract
    query (the first [try] block). *)
Definition convertStatement (abstractSql : AbstractSqlQuery)
    : Completion ParameterizedSqlStatement :=
  match convertToActualStatement (clauses abstractSql) with
  | Throw _ => Throw (Error "Failed to convert the query the database: ")
  | Return statement =>
      match convertParameters (query_parameters abstractSql) with
      | Throw _ => Throw (Error "Failed to convert the query the database: ")
      | Return parameters => Return (mkStatement statement parameters)
      end
  end.

(** Converts the abstract query into PostgreSQL and executes it. *)
Definition queryDatabase (abstractSql : AbstractSqlQuery) : M RowStream :=
  match convertStatement abstractSql with
  | Throw e => throw e
  | Return sql =>
      let* stream := getDataFromSource sql in
      match getExpander (aliasMapping abstractSql) with
      | Throw _ => throw (Error "Failed to expand the database result: ")
      | Return ormExpander => ret (pipeThrough stream ormExpander)
      end
  end.

Definition query (q : AbstractQuery) : M RowStream :=
  match convertQuery q with
  | Throw e => throw e
  | Return abstractSql =>
      let queryDB := queryDatabase in
      let* rootStream := queryDB abstractSql in
      if Nat.eqb (length (nestedManys abstractSql)) 0
      then ret rootStream
      else makeSubQueriesAndMergeWithRoot rootStream
             (nestedManys abstractSql) queryDB
  end.

End WithCollaborators.

End Driver.

(** ** [runAst]: fetching the nested collections of the current level *)
Module RunAst.

(** The part of a query the loop rewrites ([limit], [offset], [page]);
    [None] is [null]. *)
Record Query : Type := mkQuery {
  limit : option Z;
  offset : option Z;
  page : option Z
}.

Record NestedCollectionNode : Type := mkNode {
  type : string;
  fieldKey : string;
  query : Query
}.

(** [merge({}, nestedNode, { query })] of lodash: a copy of the node whose
    query takes the given limit, offset and page. *)
Definition mergeQuery (nestedNode : NestedCollectionNode) (q : Query)
    : NestedCollectionNode :=
  {| type := type nestedNode; fieldKey := fieldKey nestedNode; query := q |}.

(** [merge({}, nestedNode, { query: { limit: -1 } })]: only the limit is
    overwritten. *)
Definition mergeLimit (nestedNode : NestedCollectionNode) (l : Z)
    : NestedCollectionNode :=
  {| type := type nestedNode;
     fieldKey := fieldKey nestedNode;
     query := {| limit := Some l;
                 offset := offset (query nestedNode);
                 page := page (query nestedNode) |} |}.

Section Run.

(** The items of the current level are opaque to the loop. *)
Variable Item : Type.
Variable Items : Type.

(** [env['RELATIONAL_BATCH_SIZE']] *)
Variable RELATIONAL_BATCH_SIZE : Z.

(** The recursive call [runAst(node, schema, { knex, nested: true })]:
    [None] is [null]. *)
Variable runAst : NestedCollectionNode → option (list Item).

(** [mergeWithParentItems(schema, nestedItems, items, nestedNode)] *)
Variable mergeWithParentItems :
  list Item → Items → NestedCollectionNode → Items.

(** The state of the loop: the parent items and the nodes handed to
    [runAst] so far (newest first). *)
Record LoopState : Type := mkLoopState {
  items : Items;
  requested : list NestedCollectionNode
}.

(** The node of batch number [batchCount]. *)
Definition batchNode (nestedNode : NestedCollectionNode) (batchCount : nat)
    : NestedCollectionNode :=
  mergeQuery nestedNode
    {| limit := Some RELATIONAL_BATCH_SIZE;
       offset := Some (Z.of_nat batchCount * RELATIONAL_BATCH_SIZE)%Z;
       page := None |}.

(** [!nestedItems || nestedItems.length < RELATIONAL_BATCH_SIZE] *)
Definition lastBatch (nestedItems : option (list Item)) : bool :=
  match nestedItems with
  | None => true
  | Some l => Z.ltb (Z.of_nat (length l)) RELATIONAL_BATCH_SIZE
  end.

(** One pass through the body of [while (hasMore)]: the next state and the
    new value of [hasMore]. *)
Definition batchStep (nestedNode : NestedCollectionNode) (batchCount : nat)
    (st : LoopState) : LoopState * bool :=
  let node := batchNode nestedNode batchCount in
  let nestedItems := runAst node in
  let items' :=
    match nestedItems with
    | Some l => mergeWithParentItems l (items st) nestedNode
    | None => items st
    end in
  ({| items := items'; requested := node :: requested st |},
   negb (lastBatch nestedItems)).

(** [while (hasMore) { ... batchCount++ }], with the number of passes
    bounded by [fuel]; [None] when the bound is reached with [hasMore]
    still true. *)
Fixpoint whileHasMore (fuel : nat) (nestedNode : NestedCollectionNode)
    (batchCount : nat) (st : LoopState) : option LoopState :=
  match fuel with
  | O => None
  | S fuel' =>
      let '(st', hasMore) := batchStep nestedNode batchCount st in
      if hasMore then whileHasMore fuel' nestedNode (S batchCount) st'
      else Some st'
  end.

(** The body of [for (const nestedNode of nestedNodes)]. *)
Definition fetchNested (fuel : nat) (nestedNode : NestedCollectionNode)
    (st : LoopState) : option LoopState :=
  if String.eqb (type nestedNode) "o2m"
  then whileHasMore fuel nestedNode 0 st
  else
    let node := mergeLimit nestedNode (-1)%Z in
    let nestedItems := runAst node in
    Some {| items :=
              match nestedItems with
              | Some l => mergeWithParentItems l (items st) nestedNode
              | None => items st
              end;
            requested := node :: requested st |}.

Fixpoint forNestedNodes (fuel : nat) (nestedNodes : list NestedCollectionNode)
    (st : LoopState) : option LoopState :=
  match nestedNodes with
  | [] => Some st
  | nestedNode :: rest =>
      match fetchNested fuel nestedNode st with
      | Some st' => forNestedNodes fuel rest st'
      | None => None
      end
  end.

(** The fetch of batch number [batchCount] is the last one: it returns
    [null] or fewer than [RELATIONAL_BATCH_SIZE] items. *)
Definition stopsAt (nestedNode : NestedCollectionNode) (batchCount : nat)
    : bool :=
  lastBatch (runAst (batchNode nestedNode batchCount)).

(** The parent items after the batches [first, first + count) have been
    merged in turn. *)
Fixpoint mergedItems (nestedNode : NestedCollectionNode) (first count : nat)
    (parents : Items) : Items :=
  match count with
  | O => parents
  | S count' =>
      mergedItems nestedNode (S first) count'
        match runAst (batchNode nestedNode first) with
        | Some l => mergeWithParentItems l parents nestedNode
        | None => parents
        end
  end.

End Run.

End RunAst.

(** ** [applyFilter]: the knex based filter compiler ([apply-query.ts]) *)
Module ApplyQuery.

(** *** JavaScript values, as far as filters use them

    The filter compiler never computes with a number: it hands numbers on
    to the builder and prints them inside template literals.  A number is
    held as the text [String(n)] gives for it (["5"], ["1.5"],
    ["1e+21"]). *)
Inductive JsValue : Type :=
| JNull
| JBool (b : bool)
| JNum (text : string)
| JStr (s : string)
| JArr (items : list JsValue)
| JObj (entries : list (string * JsValue)).

(** A [Filter] is an object; the keys keep their insertion order. *)
Abbreviation Filter := JsValue.

Definition typeError {A} (message : string) : Completion A :=
  Throw (TypeError message).

(** [key.startsWith('_')] *)
Definition startsWithUnderscore (key : string) : bool :=
  match key with
  | String c _ => Ascii.eqb c "_"%char
  | EmptyString => false
  end.

Definition chars (s : string) : list JsValue :=
  (fun c => JStr (String c EmptyString)) <$> list_ascii_of_string s.

Definition indexed (l : list JsValue) : list (string * JsValue) :=
  imap (fun i x => (pretty i, x)) l.

(** [Object.entries(value)] *)
Definition objectEntries (value : JsValue)
    : Completion (list (string * JsValue)) :=
  match value with
  | JNull => typeError "Cannot convert undefined or null to object"
  | JObj entries => Return entries
  | JArr items => Return (indexed items)
  | JStr s => Return (indexed (chars s))
  | JBool _ | JNum _ => Return []
  end.

(** [isPlainObject(value)] of lodash *)
Definition isPlainObject (value : JsValue) : bool :=
  match value with JObj _ => true | _ => false end.

(** [value.split(',')] *)
Fixpoint splitComma (s : string) : list string :=
  match s with
  | EmptyString => [EmptyString]
  | String c rest =>
      if Ascii.eqb c ","%char then EmptyString :: splitComma rest
      else
        match splitComma rest with
        | [] => [String c EmptyString]
        | part :: parts => String c part :: parts
        end
  end.

(** The string a template literal makes of a value. *)
Fixpoint toString (value : JsValue) : string :=
  match value with
  | JNull => "null"
  | JBool true => "true"
  | JBool false => "false"
  | JNum text => text
  | JStr s => s
  | JArr items =>
      String.concat ","
        ((fun item => match item with JNull => "" | _ => toString item end)
           <$> items)
  | JObj _ => "[object Object]"
  end.

(** [if (typeof value === 'string') value = value.split(',')] *)
Definition splitIfString (value : JsValue) : JsValue :=
  match value with
  | JStr s => JArr (JStr <$> splitComma s)
  | _ => value
  end.

(** *** Relations of the schema *)
Record Relation : Type := mkRelation {
  many_collection : string;
  many_field : string;
  one_collection : option string;
  one_field : option string;
  one_primary : option string
}.

(** A nullable string inside a template literal. *)
Definition template (s : option string) : string := default "null" s.

(** [a || b] on strings: [b] when [a] is missing or empty. *)
Definition orElse (a : option string) (b : string) : string :=
  match a with
  | Some s => if String.eqb s "" then b else s
  | None => b
  end.

Definition eqOpt (s : string) (o : option string) : bool :=
  match o with Some s' => String.eqb s s' | None => false end.

(** *** The query builder, as the calls recorded on it *)
Inductive Logical : Type := LAnd | LOr.

(** [dbQuery.leftJoin({ [alias]: table }, first, second)] *)
Record Join : Type := mkJoin {
  join_alias : string;
  join_table : option string;
  join_first : string;
  join_second : string
}.

(** The callbacks the code hands to the builder, each with the variables
    it captures.  A callback is not called when it is handed over: knex
    calls it when it compiles the query.
    - [NullOrEmpty key]:
      [(query) => { query.whereNull(key); query.orWhere(key, '=', '') }];
    - [NotNullOrNotEmpty key]:
      [(query) => { query.whereNotNull(key); query.orWhere(key, '!=', '') }];
    - [SubFilters value collection key aliases]:
      [(subQuery) => { value.forEach((subFilter) => addWhereClauses(subQuery,
      subFilter, collection, key === '_and' ? 'and' : 'or')) }], with the
      alias map of the enclosing [applyFilter]. *)
Inductive Callback : Type :=
| NullOrEmpty (key : string)
| NotNullOrNotEmpty (key : string)
| SubFilters (value : JsValue) (collection : string) (key : string)
             (aliases : gmap string string).

(** A where-call recorded on a builder.  [accessor] is the [and]/[or]
    property the call goes through ([dbQuery[logical].where(...)]), if
    any; [WithCallback] is a call whose argument is a callback;
    [WithBuilder] is a call whose second argument is a builder. *)
Inductive WhereCall : Type :=
| Plain (accessor : option Logical) (method : string) (args : list JsValue)
| WithCallback (accessor : option Logical) (method : string)
               (callback : Callback)
| WithBuilder (accessor : option Logical) (method : string) (column : string)
              (subQuery : QueryBuilder)
with QueryBuilder : Type :=
| mkBuilder (selected : list string) (table : option string)
            (joined : list Join) (conditions : list WhereCall).

(** A where-statement as knex holds it while it compiles the query, the
    callbacks called: [Group] holds the statements of the calls a callback
    made on its own builder, [CallSubquery] the compiled builder. *)
Inductive WhereClause : Type :=
| Call (accessor : option Logical) (method : string) (args : list JsValue)
| Group (accessor : option Logical) (method : string)
        (clauses : list WhereClause)
| CallSubquery (accessor : option Logical) (method : string) (column : string)
               (subQuery : CompiledQuery)
with CompiledQuery : Type :=
| mkCompiled (from_selected : list string) (from_table : option string)
             (from_joined : list Join) (statements : list WhereClause).

Definition selected (b : QueryBuilder) : list string :=
  match b with mkBuilder s _ _ _ => s end.
Definition table (b : QueryBuilder) : option string :=
  match b with mkBuilder _ t _ _ => t end.
Definition joined (b : QueryBuilder) : list Join :=
  match b with mkBuilder _ _ j _ => j end.
Definition conditions (b : QueryBuilder) : list WhereCall :=
  match b with mkBuilder _ _ _ c => c end.

(** The outcome of a compilation step whose recursion depth is bounded by
    a fuel argument. *)
Inductive Outcome (A : Type) : Type :=
| Done (a : A)
| Thrown (e : Exception)
| OutOfFuel.
Arguments Done {A} a.
Arguments Thrown {A} e.
Arguments OutOfFuel {A}.

Definition lift {A} (c : Completion A) : Outcome A :=
  match c with Return a => Done a | Throw e => Thrown e end.

(** [list.forEach(f)] over a threaded state, stopping at the first throw. *)
Fixpoint forEach {A S} (f : A → S → Outcome S) (l : list A) (s : S)
    : Outcome S :=
  match l with
  | [] => Done s
  | x :: rest =>
      match f x s with
      | Done s' => forEach f rest s'
      | Thrown e => Thrown e
      | OutOfFuel => OutOfFuel
      end
  end.

(** [value.some((subFilter) => Object.keys(subFilter).length === 0)] *)
Fixpoint someEmpty (items : list JsValue) : Completion bool :=
  match items with
  | [] => Return false
  | subFilter :: rest =>
      match objectEntries subFilter with
      | Throw e => Throw e
      | Return [] => Return true
      | Return (_ :: _) => someEmpty rest
      end
  end.

(** [value.some] / [value.forEach], looked up on the value behind an
    [_or] / [_and] key: the items to go through when the value is an
    array, and the engine's [TypeError] for the method [name] when it is
    not. *)
Definition arrayItems (name : string) (value : JsValue)
    : Completion (list JsValue) :=
  match value with
  | JArr items => Return items
  | JNull =>
      typeError ("Cannot read properties of null (reading '" +:+ name +:+ "')")
  | _ => typeError ("value." +:+ name +:+ " is not a function")
  end.

(** The first method called on the value behind a logical key: [some]
    for [_or], [forEach] for [_and]. *)
Definition firstMethod (key : string) : string :=
  if String.eqb key "_or" then "some" else "forEach".

Definition isLogicalKey (key : string) : bool :=
  String.eqb key "_or" || String.eqb key "_and".

(** [getFilterPath(key, value)] *)
Fixpoint getFilterPath (key : string) (value : JsValue)
    : Completion (list string) :=
  match value with
  | JNull => typeError "Cannot convert undefined or null to object"
  | JObj [] =>
      (* the recursive call on [undefined] throws in [Object.keys] *)
      typeError "Cannot convert undefined or null to object"
  | JObj ((key', value') :: _) =>
      if startsWithUnderscore key' then Return [key]
      else
        match getFilterPath key' value' with
        | Return path => Return (key :: path)
        | Throw e => Throw e
        end
  | JBool _ | JNum _ | JStr _ | JArr _ => Return [key]
  end.

(** [getOperation(key, value)] *)
Fixpoint getOperation (key : string) (value : JsValue)
    : Completion (string * JsValue) :=
  if startsWithUnderscore key
     && negb (String.eqb key "_and") && negb (String.eqb key "_or")
  then Return (key, value)
  else
    match value with
    | JObj [] =>
        (* [undefined.startsWith] in the recursive call *)
        typeError "Cannot read properties of undefined (reading 'startsWith')"
    | JObj ((key', value') :: _) => getOperation key' value'
    | _ => Return ("_eq", value)
    end.

Section ApplyFilter.

(** [[...schema.relations, ...systemRelationRows]] *)
Variable relations : list Relation.

(** [nanoid(8)]: the identifier of the n-th draw. *)
Variable nanoid : nat → string.

Definition isM2O (parentCollection : option string) (field : string)
    (relation : Relation) : bool :=
  eqOpt (many_collection relation) parentCollection
  && String.eqb (many_field relation) field.

Definition isO2M (parentCollection : option string) (field : string)
    (relation : Relation) : bool :=
  match one_collection relation, parentCollection with
  | Some c, Some p => String.eqb c p
  | None, None => true
  | _, _ => false
  end
  && eqOpt field (one_field relation).

(** What the schema says of a field, read off the relation itself:
    [relation] makes [field] a many-to-one field of [collection] when the
    collection is its many side, and a one-to-many field of [collection]
    when the collection is its one side. *)
Definition manyToOne (relation : Relation) (collection : option string)
    (field : string) : Prop :=
  In relation relations
  ∧ collection = Some (many_collection relation)
  ∧ many_field relation = field.

Definition oneToMany (relation : Relation) (collection field : string)
    : Prop :=
  In relation relations
  ∧ one_collection relation = Some collection
  ∧ one_field relation = Some field.

(** What [addJoins] changes: the alias map of [applyFilter], the joins of
    the builder and the number of identifiers drawn so far. *)
Record JoinState : Type := mkJoinState {
  aliasMap : gmap string string;
  joins : list Join;
  draws : nat
}.

(** [followRelation] of [addJoin].  Only M2O relations are followed when
    adding joins. *)
Fixpoint followRelation (pathParts : list string)
    (parentCollection parentAlias : option string) (st : JoinState)
    : JoinState :=
  match pathParts with
  | [] => st
  | field :: rest =>
      match List.find (isM2O parentCollection field) relations with
      | None => st
      | Some m2oRelation =>
          let alias := nanoid (draws st) in
          let st' :=
            {| aliasMap := <[String.concat "+" pathParts := alias]> (aliasMap st);
               joins := joins st ++
                 [{| join_alias := alias;
                     join_table := one_collection m2oRelation;
                     join_first :=
                       orElse parentAlias (template parentCollection)
                       +:+ "." +:+ many_field m2oRelation;
                     join_second :=
                       alias +:+ "." +:+ template (one_primary m2oRelation) |}];
               draws := S (draws st) |} in
          match rest with
          | [] => st'
          | _ :: _ =>
              followRelation rest (one_collection m2oRelation) (Some alias) st'
          end
      end
  end.

(** Joins that follow a path of many-to-one fields.  [collection] is the
    collection joined from and [name] the name it goes by in the statement
    (its alias, or its own name).  Each join is made for a relation whose
    many side is the collection joined from, on the field the path names
    there; it joins the one side of that relation, matched on its primary
    key, and the next join starts from that one side. *)
Inductive joinsAlong
    : option string → string → list string → list Join → Prop :=
| joinsAlong_end collection name path : joinsAlong collection name path []
| joinsAlong_step collection name field rest relation join more :
    manyToOne relation collection field →
    join_table join = one_collection relation →
    join_first join = name +:+ "." +:+ field →
    join_second join
    = join_alias join +:+ "." +:+ template (one_primary relation) →
    joinsAlong (one_collection relation)
      (orElse (Some (join_alias join)) (template (one_collection relation)))
      rest more →
    joinsAlong collection name (field :: rest) (join :: more).

(** Joins added for filter paths of [collection]: for each path the joins
    along its many-to-one fields, starting from the collection. *)
Definition onlyManyToOne (collection : string) (added : list Join) : Prop :=
  ∃ groups,
    added = concat groups
    ∧ Forall (fun group =>
                ∃ path, joinsAlong (Some collection) collection path group)
        groups.

(** What a run of [addJoins] for [collection] did to the joins: it kept
    those the builder had and added joins along many-to-one fields. *)
Definition joinedManyToOne (collection : string) (before after : JoinState)
    : Prop :=
  ∃ added,
    joins after = joins before ++ added ∧ onlyManyToOne collection added.

Definition addJoin (path : list string) (collection : string)
    (st : JoinState) : JoinState :=
  followRelation path (Some collection) None st.

Fixpoint addJoins (fuel : nat) (filter : Filter) (collection : string)
    (st : JoinState) : Outcome JoinState :=
  match fuel with
  | O => OutOfFuel
  | S fuel' =>
      match objectEntries filter with
      | Throw e => Thrown e
      | Return entries =>
          forEach
            (fun '(key, value) st =>
               if isLogicalKey key then
                 match arrayItems (firstMethod key) value with
                 | Throw e => Thrown e
                 | Return subFilters =>
                     match (if String.eqb key "_or" then someEmpty subFilters
                            else Return false) with
                     | Throw e => Thrown e
                     | Return true => Done st
                     | Return false =>
                         forEach
                           (fun subFilter st =>
                              addJoins fuel' subFilter collection st)
                           subFilters st
                     end
                 end
               else
                 match getFilterPath key value with
                 | Throw e => Thrown e
                 | Return filterPath =>
                     if Nat.ltb 1 (length filterPath)
                     then Done (addJoin filterPath collection st)
                     else Done st
                 end)
            entries st
      end
  end.

(** What [addWhereClauses] changes: the where-calls recorded on [dbQuery]
    and the number of identifiers drawn so far. *)
Record WhereState : Type := mkWhereState {
  wheres : list WhereCall;
  drawn : nat
}.

(** The outcome [r] of a run on a builder without where-calls, read as the
    outcome on a builder that already holds the calls [before]. *)
Definition rebase (before : list WhereCall) (r : Outcome WhereState)
    : Outcome WhereState :=
  match r with
  | Done st => Done {| wheres := before ++ wheres st; drawn := drawn st |}
  | Thrown e => Thrown e
  | OutOfFuel => OutOfFuel
  end.

Definition isFalse (value : JsValue) : bool :=
  match value with JBool false => true | _ => false end.

(** [if (condition) dbQuery[logical].method(...)]: the call the [if]
    records, if any. *)
Definition when (condition : bool) (call : WhereCall) : list WhereCall :=
  if condition then [call] else [].

(** The calls [applyFilterToQuery] records: a sequence of independent
    [if]s, each adding its call when its test holds. *)
Definition filterCalls (key operator : string) (compareValue : JsValue)
    (logical : Logical) : list WhereCall :=
  let op := String.eqb operator in
  let call := Plain (Some logical) in
  when (op "_eq")
    (call "where" [JObj [(key, compareValue)]])
  ++ when (op "_neq")
    (call "whereNot" [JObj [(key, compareValue)]])
  ++ when (op "_contains")
    (call "where"
       [JStr key; JStr "like"; JStr ("%" +:+ toString compareValue +:+ "%")])
  ++ when (op "_ncontains")
    (call "whereNot"
       [JStr key; JStr "like"; JStr ("%" +:+ toString compareValue +:+ "%")])
  ++ when (op "_gt")
    (call "where" [JStr key; JStr ">"; compareValue])
  ++ when (op "_gte")
    (call "where" [JStr key; JStr ">="; compareValue])
  ++ when (op "_lt")
    (call "where" [JStr key; JStr "<"; compareValue])
  ++ when (op "_lte")
    (call "where" [JStr key; JStr "<="; compareValue])
  ++ when (op "_in")
    (call "whereIn" [JStr key; splitIfString compareValue])
  ++ when (op "_nin")
    (call "whereNotIn" [JStr key; splitIfString compareValue])
  ++ when (op "_null" || (op "_nnull" && isFalse compareValue))
    (call "whereNull" [JStr key])
  ++ when (op "_nnull" || (op "_null" && isFalse compareValue))
    (call "whereNotNull" [JStr key])
  ++ when (op "_empty" || (op "_nempty" && isFalse compareValue))
    (WithCallback (Some logical) "andWhere" (NullOrEmpty key))
  ++ when (op "_nempty" || (op "_empty" && isFalse compareValue))
    (WithCallback (Some logical) "andWhere" (NotNullOrNotEmpty key))
  ++ when (op "_between")
    (call "whereBetween" [JStr key; splitIfString compareValue])
  ++ when (op "_nbetween")
    (call "whereNotBetween" [JStr key; splitIfString compareValue]).

Definition applyFilterToQuery (key operator : string) (compareValue : JsValue)
    (logical : Logical) (st : WhereState) : WhereState :=
  {| wheres := wheres st ++ filterCalls key operator compareValue logical;
     drawn := drawn st |}.

(** [getWhereColumn(path, collection)], reading the alias map that
    [addJoins] filled. *)
Fixpoint whereColumn (aliases : gmap string string) (pathParts : list string)
    (parentCollection : option string) (columnName : string) : string :=
  match pathParts with
  | [] => columnName
  | field :: rest =>
      match List.find
              (fun relation => isM2O parentCollection field relation
                               || isO2M parentCollection field relation)
              relations with
      | None => columnName
      | Some relation =>
          let alias := aliases !! String.concat "+" pathParts in
          let parent :=
            if isM2O parentCollection field relation
            then one_collection relation
            else Some (many_collection relation) in
          let columnName' :=
            match rest with
            | [last] => orElse alias (template parent) +:+ "." +:+ last
            | _ => columnName
            end in
          match rest with
          | [] => columnName'
          | _ :: _ => whereColumn aliases rest parent columnName'
          end
      end
  end.

Definition getWhereColumn (aliases : gmap string string) (path : list string)
    (collection : string) : string :=
  whereColumn aliases path (Some collection) "".

(** The type of [addWhereClauses] once the alias map of the enclosing
    [applyFilter] is fixed. *)
Definition AddWhereClauses : Type :=
  gmap string string → Filter → string → Logical → WhereState
  → Outcome WhereState.

(** [applyFilter(knex, schema, rootQuery, rootFilter, collection)]: a fresh
    alias map, the joins, then the where-clauses.  The builder and the
    number of identifiers drawn are threaded. *)
Definition applyFilterWith (addWhereClauses : AddWhereClauses) (fuel : nat)
    (rootQuery : QueryBuilder) (rootFilter : Filter) (collection : string)
    (draws0 : nat) : Outcome (QueryBuilder * nat) :=
  match addJoins fuel rootFilter collection
          {| aliasMap := ∅; joins := joined rootQuery; draws := draws0 |} with
  | Thrown e => Thrown e
  | OutOfFuel => OutOfFuel
  | Done js =>
      match addWhereClauses (aliasMap js) rootFilter collection LAnd
              {| wheres := conditions rootQuery; drawn := draws js |} with
      | Thrown e => Thrown e
      | OutOfFuel => OutOfFuel
      | Done ws =>
          Done (mkBuilder (selected rootQuery) (table rootQuery)
                  (joins js) (wheres ws),
                drawn ws)
      end
  end.

(** [applyQuery(knex, collection, dbQuery, { filter }, schema)]: with a
    query that holds a filter only, [applyFilter] is the one branch
    taken. *)
Definition applyQueryWith (addWhereClauses : AddWhereClauses) (fuel : nat)
    (collection : string) (dbQuery : QueryBuilder) (filter : Filter)
    (draws0 : nat) : Outcome (QueryBuilder * nat) :=
  applyFilterWith addWhereClauses fuel dbQuery filter collection draws0.

Fixpoint addWhereClauses (fuel : nat) (aliases : gmap string string)
    (filter : Filter) (collection : string) (logical : Logical)
    (st : WhereState) : Outcome WhereState :=
  match fuel with
  | O => OutOfFuel
  | S fuel' =>
      match objectEntries filter with
      | Throw e => Thrown e
      | Return entries =>
          forEach
            (fun '(key, value) st =>
               if isLogicalKey key then
                 match (if String.eqb key "_or"
                        then match arrayItems "some" value with
                             | Throw e => Throw e
                             | Return subFilters => someEmpty subFilters
                             end
                        else Return false) with
                 | Throw e => Thrown e
                 | Return true => Done st
                 | Return false =>
                     (* dbQuery[logical].where((subQuery) => ...): the
                        callback is handed over, not called *)
                     Done {| wheres := wheres st ++
                               [WithCallback (Some logical) "where"
                                  (SubFilters value collection key aliases)];
                             drawn := drawn st |}
                 end
               else
                 match getFilterPath key value with
                 | Throw e => Thrown e
                 | Return filterPath =>
                 match getOperation key value with
                 | Throw e => Thrown e
                 | Return (filterOperator, filterValue) =>
                     if Nat.ltb 1 (length filterPath) then
                       match List.find
                               (isO2M (Some collection) (hd "" filterPath))
                               relations with
                       | Some o2mRelation =>
                           (* Generate subquery *)
                           let subQuery :=
                             mkBuilder [many_field o2mRelation]
                               (Some (many_collection o2mRelation)) [] [] in
                           match applyQueryWith (addWhereClauses fuel') fuel'
                                   (many_collection o2mRelation) subQuery
                                   value (drawn st) with
                           | Thrown e => Thrown e
                           | OutOfFuel => OutOfFuel
                           | Done (subQuery', drawn') =>
                               let pkField :=
                                 collection +:+ "."
                                 +:+ orElse (one_primary o2mRelation) "id" in
                               Done {| wheres := wheres st ++
                                         [WithBuilder (Some logical) "whereIn"
                                            pkField subQuery'];
                                       drawn := drawn' |}
                           end
                       | None =>
                           let columnName :=
                             getWhereColumn aliases filterPath collection in
                           Done (applyFilterToQuery columnName filterOperator
                                   filterValue logical st)
                       end
                     else
                       Done (applyFilterToQuery
                               (collection +:+ "." +:+ hd "" filterPath)
                               filterOperator filterValue logical st)
                 end
                 end)
            entries st
      end
  end.

(** A step that only appends where-calls, whatever calls the builder
    already holds. *)
Definition Appends (f : WhereState → Outcome WhereState) : Prop :=
  ∀ st, f st = rebase (wheres st) (f {| wheres := []; drawn := drawn st |}).

Definition applyFilter (fuel : nat) (rootQuery : QueryBuilder)
    (rootFilter : Filter) (collection : string) (draws0 : nat)
    : Outcome (QueryBuilder * nat) :=
  applyFilterWith (addWhereClauses fuel) fuel rootQuery rootFilter collection
    draws0.

(** *** What knex does with the recorded calls when it compiles the query

    Knex goes through the where-calls in their order.  For a call with a
    callback it makes a builder of its own, calls the callback on it and
    compiles the calls the callback recorded there, which calls their
    callbacks in turn; for a call with a builder it compiles that
    builder.  An error a callback throws, and an identifier it draws,
    shows now and not when [applyFilter] ran. *)

(** [callback.call(builder, builder)] on a builder without where-calls. *)
Definition invoke (fuel : nat) (callback : Callback) (draws0 : nat)
    : Outcome WhereState :=
  let subQuery := {| wheres := []; drawn := draws0 |} in
  match callback with
  | NullOrEmpty key =>
      Done {| wheres := [Plain None "whereNull" [JStr key];
                         Plain None "orWhere" [JStr key; JStr "="; JStr ""]];
              drawn := draws0 |}
  | NotNullOrNotEmpty key =>
      Done {| wheres := [Plain None "whereNotNull" [JStr key];
                         Plain None "orWhere" [JStr key; JStr "!="; JStr ""]];
              drawn := draws0 |}
  | SubFilters value collection key aliases =>
      match arrayItems "forEach" value with
      | Throw e => Thrown e
      | Return subFilters =>
          forEach
            (fun subFilter subQuery =>
               addWhereClauses fuel aliases subFilter collection
                 (if String.eqb key "_and" then LAnd else LOr) subQuery)
            subFilters subQuery
      end
  end.

(** Compiling the calls of a list one after the other, the identifiers
    drawn being threaded. *)
Fixpoint compileEach (compile : WhereCall → nat → Outcome (WhereClause * nat))
    (calls : list WhereCall) (draws0 : nat)
    : Outcome (list WhereClause * nat) :=
  match calls with
  | [] => Done ([], draws0)
  | call :: rest =>
      match compile call draws0 with
      | Thrown e => Thrown e
      | OutOfFuel => OutOfFuel
      | Done (statement, draws1) =>
          match compileEach compile rest draws1 with
          | Thrown e => Thrown e
          | OutOfFuel => OutOfFuel
          | Done (statements, draws2) => Done (statement :: statements, draws2)
          end
      end
  end.

Fixpoint compile (fuel : nat) (call : WhereCall) (draws0 : nat)
    : Outcome (WhereClause * nat) :=
  match fuel with
  | O => OutOfFuel
  | S fuel' =>
      match call with
      | Plain accessor method args => Done (Call accessor method args, draws0)
      | WithCallback accessor method callback =>
          match invoke fuel' callback draws0 with
          | Thrown e => Thrown e
          | OutOfFuel => OutOfFuel
          | Done subQuery =>
              match compileEach (compile fuel') (wheres subQuery)
                      (drawn subQuery) with
              | Thrown e => Thrown e
              | OutOfFuel => OutOfFuel
              | Done (clauses, draws1) =>
                  Done (Group accessor method clauses, draws1)
              end
          end
      | WithBuilder accessor method column subQuery =>
          match compileEach (compile fuel') (conditions subQuery) draws0 with
          | Thrown e => Thrown e
          | OutOfFuel => OutOfFuel
          | Done (clauses, draws1) =>
              Done (CallSubquery accessor method column
                      (mkCompiled (selected subQuery) (table subQuery)
                         (joined subQuery) clauses),
                    draws1)
          end
      end
  end.

(** The where-statements knex holds for a builder once its callbacks
    were called. *)
Definition compileWheres (fuel : nat) (calls : list WhereCall) (draws0 : nat)
    : Outcome (list WhereClause * nat) :=
  compileEach (compile fuel) calls draws0.

End ApplyFilter.

(** *** From the where-statements to the text of the WHERE clause

    The loop below is the one [applyCaseWhen] runs over
    [compiler.grouped.where] (knex's own [where()] joins the statements
    the same way): a statement that compiles to the empty string is
    skipped, and [statement.bool] is put between two compiled statements.
    How knex compiles a plain call or a sub-query call is left open
    ([compileCall], [compileSubquery]); the statement of a call with a
    callback compiles to the parenthesised text of the statements of the
    calls its callback made, and to the empty string when the callback
    made none (knex's [whereWrapped]). *)
Section Compile.

Variable compileCall : string → list JsValue → string.
Variable compileSubquery : string → string → CompiledQuery → string.

Definition isOrMethod (method : string) : bool :=
  match method with
  | String "o" (String "r" _) => true
  | _ => false
  end.

(** [statement.bool] *)
Definition boolOf (accessor : option Logical) (method : string) : string :=
  match accessor with
  | Some LOr => "or"
  | _ => if isOrMethod method then "or" else "and"
  end.

Definition statementBool (statement : WhereClause) : string :=
  match statement with
  | Call accessor method _ => boolOf accessor method
  | Group accessor method _ => boolOf accessor method
  | CallSubquery accessor method _ _ => boolOf accessor method
  end.

Definition pushStatement (bool val : string) (sqlParts : list string)
    : list string :=
  if String.eqb val "" then sqlParts
  else if Nat.ltb 0 (length sqlParts) then sqlParts ++ [bool; val]
  else sqlParts ++ [val].

Definition whereSqlParts (compileStatement : WhereClause → string)
    : list WhereClause → list string → list string :=
  fix loop (statements : list WhereClause) (sqlParts : list string) :=
    match statements with
    | [] => sqlParts
    | statement :: rest =>
        loop rest
          (pushStatement (statementBool statement)
             (compileStatement statement) sqlParts)
    end.

Fixpoint compileStatement (statement : WhereClause) : string :=
  match statement with
  | Call _ method args => compileCall method args
  | Group _ _ clauses =>
      let val := String.concat " " (whereSqlParts compileStatement clauses []) in
      if String.eqb val "" then "" else "(" +:+ val +:+ ")"
  | CallSubquery _ method column subQuery =>
      compileSubquery method column subQuery
  end.

(** [sqlParts.join(' ')]: the predicate of the WHERE clause, empty when
    the builder restricts nothing. *)
Definition whereSql (statements : list WhereClause) : string :=
  String.concat " " (whereSqlParts compileStatement statements []).

End Compile.

(** *** The WHERE clause of a builder *)
Section Restriction.

Variable relations : list Relation.
Variable nanoid : nat → string.
Variable compileCall : string → list JsValue → string.
Variable compileSubquery : string → string → CompiledQuery → string.

(** The text of the WHERE clause for the calls [calls]: the callbacks are
    called, then the statements are joined. *)
Definition whereText (fuel : nat) (calls : list WhereCall) (draws0 : nat)
    : Outcome (string * nat) :=
  match compileWheres relations nanoid fuel calls draws0 with
  | Done (clauses, draws1) =>
      Done (whereSql compileCall compileSubquery clauses, draws1)
  | Thrown e => Thrown e
  | OutOfFuel => OutOfFuel
  end.

(** Two outcomes of [addWhereClauses] that restrict alike: the same
    throw, or builders that compile alike: to WHERE clauses with the same
    text after the same draws, or to the same throw. *)
Definition sameRestriction (fuel : nat) (r1 r2 : Outcome WhereState) : Prop :=
  match r1, r2 with
  | Done st1, Done st2 =>
      whereText fuel (wheres st1) (drawn st1)
      = whereText fuel (wheres st2) (drawn st2)
  | Thrown e1, Thrown e2 => e1 = e2
  | OutOfFuel, OutOfFuel => True
  | _, _ => False
  end.

End Restriction.

End ApplyQuery.

(** ** Sample inputs *)
Module Samples.

Import Driver.

(** [{ target: title, operation: 'eq', compareTo: ['draft'] }] *)
Definition titleIsDraft : AbstractQueryFilterNode :=
  ConditionNode (mkFilterTarget "primitive" "title") "eq"
    (mkFilterCompareTo "value" [PString "draft"]) false.

Definition locationIntersects : AbstractQueryFilterNode :=
  ConditionNode (mkFilterTarget "primitive" "location") "intersects"
    (mkFilterCompareTo "value" [PString "POINT(1 2)"]) false.

(** A pool nobody has taken a client from yet. *)
Definition freshWorld : World :=
  {| reachable := true; leased := []; nextClient := 0; log := [] |}.

(** The scenario of the specification: two articles, the first with two
    comments and the second with none. *)
Definition fromClauses (collection : string) : AbstractSqlClauses :=
  {| clause_select := [];
     clause_from := collection;
     clause_limit := None;
     clause_offset := None;
     clause_order := None;
     clause_where := None |}.

Definition article (id : Z) (title : string) : Row :=
  {[ "id" := VPrimitive (PNumber id);
     "title" := VPrimitive (PString title) ]}.

Definition comment (body : string) : Row :=
  {[ "body" := VPrimitive (PString body) ]}.

Definition primitives (values : list Value) : list Primitive :=
  omap (fun v => match v with VPrimitive p => Some p | _ => None end) values.

Definition commentsRelation : AbstractSqlNestedMany :=
  mkNestedMany ["id"] "comments" ["article_id"] "comments"
    (fun keys =>
       Runtime.mkQuery (fromClauses "comments") (primitives keys) ∅ []).

Definition articlesQuery : AbstractSqlQuery :=
  Runtime.mkQuery (fromClauses "articles") [] ∅ [commentsRelation].

Definition articlesOnly : AbstractSqlQuery :=
  Runtime.mkQuery (fromClauses "articles") [] ∅ [].

Definition sampleStatement (clauses : AbstractSqlClauses) : Completion string :=
  Return ("SELECT * FROM " +:+ clause_from clauses).

Definition sampleParameters (parameters : list Primitive)
    : Completion (list Primitive) :=
  Return parameters.

Definition sampleExpander (mapping : gmap string (list string))
    : Completion (Row → Row) :=
  Return (fun row => row).

Definition sampleDatabase (statement : string) (parameters : list Primitive)
    : Completion CursorData :=
  if String.eqb statement "SELECT * FROM articles"
  then Return (mkCursorData [article 1 "A"; article 2 "B"] None)
  else
    match parameters with
    | [PNumber 1] => Return (mkCursorData [comment "hi"; comment "yo"] None)
    | _ => Return (mkCursorData [] None)
    end.

Definition sampleQueryDatabase : AbstractSqlQuery → M RowStream :=
  queryDatabase sampleStatement sampleParameters sampleExpander sampleDatabase.

Definition sampleQuery (compiled : AbstractSqlQuery) : unit → M RowStream :=
  query unit (fun _ => Return compiled)
    NestedMany.makeSubQueriesAndMergeWithRoot
    sampleStatement sampleParameters sampleExpander sampleDatabase.

Definition selectArticles : ParameterizedSqlStatement :=
  mkStatement "SELECT * FROM articles" [].

(** The root stream of the scenario, as [queryDatabase] returns it on a
    fresh pool, and the world it leaves. *)
Definition articlesStream : RowStream :=
  {| chunks := [article 1 "A"; article 2 "B"];
     failure := None;
     listeners := [("end", Release 0); ("error", Release 0)] |}.

Definition afterArticles : World :=
  {| reachable := true;
     leased := [0];
     nextClient := 1;
     log := [Executed 0 "SELECT * FROM articles" []] |}.

Definition articleWithComments : Row :=
  <["comments" := VArray [VObject (comment "hi"); VObject (comment "yo")]]>
    (article 1 "A").

Definition articleWithoutComments : Row :=
  <["comments" := VArray []]> (article 2 "B").

Definition mergedArticles : RowStream :=
  {| chunks := [articleWithComments; articleWithoutComments];
     failure := None;
     listeners := [] |}.

Definition afterMerge : World :=
  {| reachable := true;
     leased := [];
     nextClient := 3;
     log := [Executed 2 "SELECT * FROM comments" [PNumber 2];
             Executed 1 "SELECT * FROM comments" [PNumber 1];
             Executed 0 "SELECT * FROM articles" []] |}.

(** Comments fetched in batches of two: three comments in all. *)
Definition commentsNode : RunAst.NestedCollectionNode :=
  RunAst.mkNode "o2m" "comments" (RunAst.mkQuery None None None).

Definition fetchComments (node : RunAst.NestedCollectionNode)
    : option (list string) :=
  match RunAst.offset (RunAst.query node) with
  | Some 0%Z => Some ["hi"; "yo"]
  | Some 2%Z => Some ["ok"]
  | _ => Some []
  end.

Definition appendComments (nestedItems : list string) (parents : list string)
    (node : RunAst.NestedCollectionNode) : list string :=
  parents ++ nestedItems.

(** A schema with two relations: [articles.author] points to a user, and
    [comments.article] points to an article, which lists them under
    [comments]. *)
Definition blogRelations : list ApplyQuery.Relation :=
  [ApplyQuery.mkRelation "articles" "author" (Some "users") None (Some "id");
   ApplyQuery.mkRelation "comments" "article" (Some "articles")
     (Some "comments") (Some "id")].

Definition sampleNanoid (n : nat) : string := "alias" +:+ pretty n.

Definition selectFromArticles : ApplyQuery.QueryBuilder :=
  ApplyQuery.mkBuilder ["*"] (Some "articles") [] [].

(** [{ author: { name: { _eq: 'Rijk' } } }] *)
Definition byAuthorName : ApplyQuery.JsValue :=
  ApplyQuery.JObj [("author", ApplyQuery.JObj [("name",
    ApplyQuery.JObj [("_eq", ApplyQuery.JStr "Rijk")])])].

(** [{ comments: { body: { _contains: 'hi' } } }] *)
Definition byCommentBody : ApplyQuery.JsValue :=
  ApplyQuery.JObj [("comments", ApplyQuery.JObj [("body",
    ApplyQuery.JObj [("_contains", ApplyQuery.JStr "hi")])])].

(** [{ _or: [] }] *)
Definition emptyOr : ApplyQuery.JsValue :=
  ApplyQuery.JObj [("_or", ApplyQuery.JArr [])].

End Samples.

(** ** Shapes of filters *)
Module FilterShapes.

Import ApplyQuery.

(** [{ f1: { f2: ... { operator: value } } }]: a value that leads through
    the fields [fields] to one operator. *)
Fixpoint nested (fields : list string) (operator : string) (value : JsValue)
    : JsValue :=
  match fields with
  | [] => JObj [(operator, value)]
  | field :: rest => JObj [(field, nested rest operator value)]
  end.

(** The operators [applyFilterToQuery] knows. *)
Definition knownOperators : list string :=
  ["_eq"; "_neq"; "_contains"; "_ncontains"; "_gt"; "_gte"; "_lt"; "_lte";
   "_in"; "_nin"; "_null"; "_nnull"; "_empty"; "_nempty"; "_between";
   "_nbetween"].

(** The operators that take [true] or [false]. *)
Definition flagOperators : list string :=
  ["_null"; "_nnull"; "_empty"; "_nempty"].

Definition isIn (s : string) (l : list string) : bool :=
  existsb (String.eqb s) l.

(** How deep arrays and objects are nested in a value. *)
Fixpoint depth (value : JsValue) : nat :=
  match value with
  | JArr items => S (list_max (map depth items))
  | JObj entries =>
      S (list_max (map (fun '(_, v) => depth v) entries))
  | _ => 0
  end.

Definition hasComma (s : string) : bool :=
  existsb (fun c => Ascii.eqb c ","%char) (list_ascii_of_string s).

(** The joins of [after] are those of [before] followed by new ones, and
    each new join is named by an identifier drawn for it, in the order of
    the draws. *)
Definition joinsAdded (nanoid : nat → string) (before after : JoinState)
    : Prop :=
  ∃ added,
    joins after = joins before ++ added
    ∧ draws after = draws before + length added
    ∧ join_alias <$> added = nanoid <$> seq (draws before) (length added).

(** What the statement loop leaves of a list of where-statements: the
    statements that compile to some text, the first as it is and each
    later one behind its boolean. *)
Definition joinedStatements (compileStatement : WhereClause → string)
    (statements : list WhereClause) : list string :=
  match List.filter
          (fun statement => negb (String.eqb (compileStatement statement) ""))
          statements with
  | [] => []
  | first :: rest =>
      compileStatement first
      :: flat_map
           (fun statement =>
              [statementBool statement; compileStatement statement])
           rest
  end.

(** [{ _or: [{}, { status: { _eq: 'draft' } }] }]: one of the alternatives
    is the empty object. *)
Definition anythingOrDraft : list JsValue :=
  [JObj []; JObj [("status", JObj [("_eq", JStr "draft")])]].

End FilterShapes.

(** ** Two compilations and the identifiers they draw *)
Module Draws.

Import ApplyQuery.

(** Two sources of identifiers, read from the [k1]-th and the [k2]-th
    draw on, hand out the same identifiers. *)
Definition sameIdentifiers (nanoid1 nanoid2 : nat → string) (k1 k2 : nat)
    : Prop :=
  ∀ i, nanoid1 (k1 + i) = nanoid2 (k2 + i).

(** Two counts of draws that are as far from [k1] and from [k2]. *)
Definition sameDraws (k1 k2 d1 d2 : nat) : Prop :=
  ∃ n, d1 = k1 + n ∧ d2 = k2 + n.

(** Two outcomes that are alike: results related by [R], or the same
    throw. *)
Definition alike {S} (R : S → S → Prop) (r1 r2 : Outcome S) : Prop :=
  match r1, r2 with
  | Done s1, Done s2 => R s1 s2
  | Thrown e1, Thrown e2 => e1 = e2
  | OutOfFuel, OutOfFuel => True
  | _, _ => False
  end.

Definition alikeJoins (k1 k2 : nat) (s1 s2 : JoinState) : Prop :=
  aliasMap s1 = aliasMap s2
  ∧ joins s1 = joins s2
  ∧ sameDraws k1 k2 (draws s1) (draws s2).

Definition alikeWheres (k1 k2 : nat) (s1 s2 : WhereState) : Prop :=
  wheres s1 = wheres s2 ∧ sameDraws k1 k2 (drawn s1) (drawn s2).

(** The same result after as many draws. *)
Definition alikeResults {A} (k1 k2 : nat) (r1 r2 : A * nat) : Prop :=
  r1.1 = r2.1 ∧ sameDraws k1 k2 r1.2 r2.2.

End Draws.

(** ** The pool *)
Module Pool.

(** The clients of the pool are numbered as they are handed out: every
    client that is checked out was handed out earlier. *)
Definition numbered (w : World) : Prop :=
  ∀ client, In client (leased w) → client < nextClient w.

End Pool.

(** ** [applyQuery] *)
Module ApplyQueryModifiers.

Import ApplyQuery.

(** One element of [query.sort]. *)
Record Sort : Type := mkSort {
  column : string;
  order : string
}.

(** The query [applyQuery] reads.  [None] is a property that is missing;
    for [filter] and [search] also one that is falsy. *)
Record Query : Type := mkQuery {
  sort : option (list Sort);
  limit : option JsValue;
  offset : option JsValue;
  page : option JsValue;
  single : bool;
  filter : option Filter;
  search : option string
}.

(** The modifiers of the builder that [applyQuery] sets, next to the
    joins and where-calls of [QueryBuilder]: the columns handed to
    [orderBy], the last value handed to [limit] and to [offset], and
    whether [first] was called. *)
Record Modifiers : Type := mkModifiers {
  ordered : list Sort;
  limited : option JsValue;
  skipped : option JsValue;
  first : bool
}.

(** [if (value)]: the values that count as true. *)
Definition truthy (value : JsValue) : bool :=
  match value with
  | JNull => false
  | JBool b => b
  | JNum text => negb (String.eqb text "0" || String.eqb text "NaN")
  | JStr s => negb (String.eqb s "")
  | JArr _ | JObj _ => true
  end.

(** [if (query.property)] *)
Definition given (property : option JsValue) : bool :=
  match property with
  | Some value => truthy value
  | None => false
  end.

(** [typeof value === 'number'] *)
Definition isNumber (property : option JsValue) : bool :=
  match property with
  | Some (JNum _) => true
  | _ => false
  end.

Section ApplyQuery.

Variable relations : list Relation.
Variable nanoid : nat → string.

(** [applySearch(schema, dbQuery, searchQuery, collection)] *)
Variable applySearch : QueryBuilder → string → string → QueryBuilder.

(** The arithmetic of the engine, on numbers and on what it takes for
    numbers: [a * b] and [a - 1]. *)
Variable times : JsValue → JsValue → JsValue.
Variable minusOne : JsValue → JsValue.

(** The modifier part of [applyQuery]: sort, limit, offset, page and
    single, in this order. *)
Definition applyModifiers (collection : string) (m : Modifiers)
    (query : Query) : Modifiers :=
  let m :=
    match sort query with
    | Some sorts =>
        {| ordered := ordered m ++
             ((fun s => {| column := collection +:+ "." +:+ column s;
                           order := order s |}) <$> sorts);
           limited := limited m; skipped := skipped m; first := first m |}
    | None => m
    end in
  let m :=
    if isNumber (limit query)
    then {| ordered := ordered m; limited := limit query;
            skipped := skipped m; first := first m |}
    else m in
  let m :=
    if given (offset query)
    then {| ordered := ordered m; limited := limited m;
            skipped := offset query; first := first m |}
    else m in
  let m :=
    match page query, limit query with
    | Some pageValue, Some limitValue =>
        if truthy pageValue && truthy limitValue
        then {| ordered := ordered m; limited := limited m;
                skipped := Some (times limitValue (minusOne pageValue));
                first := first m |}
        else m
    | _, _ => m
    end in
  let m :=
    if single query
    then {| ordered := ordered m; limited := Some (JNum "1");
            skipped := skipped m; first := true |}
    else m in
  m.

Definition applyQuery (fuel : nat) (collection : string)
    (dbQuery : QueryBuilder) (m : Modifiers) (query : Query) (draws0 : nat)
    : Outcome (QueryBuilder * Modifiers * nat) :=
  let m' := applyModifiers collection m query in
  match
    match filter query with
    | Some f => applyFilter relations nanoid fuel dbQuery f collection draws0
    | None => Done (dbQuery, draws0)
    end
  with
  | Thrown e => Thrown e
  | OutOfFuel => OutOfFuel
  | Done (dbQuery', draws') =>
      match search query with
      | Some s =>
          if String.eqb s "" then Done (dbQuery', m', draws')
          else Done (applySearch dbQuery' s collection, m', draws')
      | None => Done (dbQuery', m', draws')
      end
  end.

End ApplyQuery.

(** [{ filter }]: a query that holds a filter only. *)
Definition filterOnly (f : Filter) : Query :=
  {| sort := None; limit := None; offset := None; page := None;
     single := false; filter := Some f; search := None |}.

End ApplyQueryModifiers.

(** ** A source of nested items that is read page by page *)
Module Pages.

Import RunAst.

(** What a collection holding [children] answers to a node: the items
    from the node's offset on, up to the node's limit. *)
Definition pageOf {Item} (children : list Item) (node : NestedCollectionNode)
    : option (list Item) :=
  match limit (query node), offset (query node) with
  | Some l, Some o => Some (take (Z.to_nat l) (drop (Z.to_nat o) children))
  | Some l, None => Some (take (Z.to_nat l) children)
  | None, Some o => Some (drop (Z.to_nat o) children)
  | None, None => Some children
  end.

(** Nested items kept as a list, each batch put behind the ones merged
    before. *)
Definition appendBatch {Item} (nestedItems : list Item) (parents : list Item)
    (node : NestedCollectionNode) : list Item :=
  parents ++ nestedItems.

End Pages.

(** ** More sample inputs *)
Module MoreSamples.

Import ApplyQuery Driver Samples.

Definition noJoins : JoinState :=
  {| aliasMap := ∅; joins := []; draws := 0 |}.

(** The joins of the filter on the author's name. *)
Definition authorJoined : JoinState :=
  {| aliasMap := {[ "author+name" := "alias0" ]};
     joins := [mkJoin "alias0" (Some "users") "articles.author" "alias0.id"];
     draws := 1 |}.

Definition noWheres : WhereState := {| wheres := []; drawn := 0 |}.

Definition authorNamed : WhereState :=
  {| wheres := [Plain (Some LAnd) "where" [JObj [("alias0.name", JStr "Rijk")]]];
     drawn := 0 |}.

(** An expander factory that rejects every alias map. *)
Definition failingExpander (mapping : gmap string (list string))
    : Completion (Row → Row) :=
  Throw (Error "no path for alias").

(** [{ offset: 5, page: 2, limit: 10 }] *)
Definition secondPage : ApplyQueryModifiers.Query :=
  {| ApplyQueryModifiers.sort := None;
     ApplyQueryModifiers.limit := Some (JNum "10");
     ApplyQueryModifiers.offset := Some (JNum "5");
     ApplyQueryModifiers.page := Some (JNum "2");
     ApplyQueryModifiers.single := false;
     ApplyQueryModifiers.filter := None;
     ApplyQueryModifiers.search := None |}.

Definition noModifiers : ApplyQueryModifiers.Modifiers :=
  ApplyQueryModifiers.mkModifiers [] None None false.

End MoreSamples.

(** ** Facts about [convertFilter] *)
Module DataSqlFacts.

Import Driver Samples.

Lemma convertFilter_generator filter collection generator :
  (convertFilter filter collection generator).2 = generator.
Proof.
  destruct filter as [target operation compareTo negate | operator childNodes];
    simpl; [| reflexivity].
  destruct (negb _ || negb _); [reflexivity |].
  destruct (isIntersects operation); reflexivity.
Qed.

(** C1.  A condition that passes both checks of [convertFilter] (a
    primitive target compared with values, by an operator other than the
    intersects ones) reaches the line that builds the parameter indexes
    from [firstParameterIndex], an identifier declared nowhere: the call
    throws a [ReferenceError], so that no where-node and no parameter
    array is returned for it, and the generator is where it was. *)
Theorem convertFilter_throws_on_every_supported_condition
    (target : FilterTarget) (operation : string) (compareTo : FilterCompareTo)
    (negate : bool) (collection : string) (generator : Generator) :
  target_type target = "primitive" →
  compareTo_type compareTo = "value" →
  isIntersects operation = false →
  convertFilter (ConditionNode target operation compareTo negate) collection
    generator
  = (Throw (ReferenceError "firstParameterIndex is not defined"), generator).
Proof.
  intros Htarget Hcompare Hoperation. simpl.
  rewrite Htarget, Hcompare, Hoperation. reflexivity.
Qed.

Lemma convertFilter_throws_on_every_supported_condition_witness :
  convertFilter titleIsDraft "articles" 0
  = (Throw (ReferenceError "firstParameterIndex is not defined"), 0).
Proof.
  apply (convertFilter_throws_on_every_supported_condition
           (mkFilterTarget "primitive" "title") "eq"
           (mkFilterCompareTo "value" [PString "draft"]) false "articles" 0);
    reflexivity.
Defined.



End DataSqlFacts.

(** ** Facts about the driver *)
Module DriverFacts.

Import Driver Samples.

Lemma release_not_leased client w : ¬ In client (leased (release client w)).
Proof.
  simpl. rewrite filter_In. intros [_ H].
  rewrite Nat.eqb_refl in H. discriminate.
Qed.

Section WithDatabase.

Variable database : string → list Primitive → Completion CursorData.

Local Abbreviation getDataFromSource := (getDataFromSource database).

(** What a resolved [getDataFromSource] has done: one client taken from
    the pool, the statement sent on it, and the two listeners registered
    on the stream. *)
Lemma getDataFromSource_returns sql w stream w' :
  getDataFromSource sql w = (Return stream, w') →
  reachable w = true
  ∧ (∃ data,
       database (statement sql) (parameters sql) = Return data
       ∧ chunks stream = delivered data
       ∧ failure stream = cursorError data)
  ∧ listeners stream = [("end", Release (nextClient w));
                        ("error", Release (nextClient w))]
  ∧ leased w' = nextClient w :: leased w
  ∧ log w' = Executed (nextClient w) (statement sql) (parameters sql) :: log w.
Proof.
  unfold Driver.getDataFromSource, connect.
  destruct (reachable w); [| discriminate].
  destruct (database _ _) as [data |]; [| discriminate].
  intros [= <- <-]. simpl. eauto 10.
Qed.

(** Emitting events never takes a client out of the pool. *)
Lemma emitAll_leased events stream client w :
  In client (leased (emitAll events stream w)) → In client (leased w).
Proof.
  unfold emitAll. revert w. induction events as [| event events IH];
    intros w; simpl; [auto |].
  intros H. apply IH in H. revert H. unfold emit.
  generalize (listeners stream). intros ls. revert w.
  induction ls as [| [name l] ls IHl]; intros w; simpl; [auto |].
  intros H. apply IHl in H.
  destruct (String.eqb name event); [| assumption].
  destruct l as [c]. simpl in H. apply filter_In in H. tauto.
Qed.

(** The listeners [getDataFromSource] registers give the client back as
    soon as ['end'] or ['error'] is emitted. *)
Lemma released_on_end_or_error sql w stream w' events :
  getDataFromSource sql w = (Return stream, w') →
  In "end" events ∨ In "error" events →
  ¬ In (nextClient w) (leased (emitAll events stream w')).
Proof.
  intros H. apply getDataFromSource_returns in H as (_ & _ & Hl & _ & _).
  intros Hevents. unfold emitAll. revert w'.
  induction events as [| event events IH]; intros w'; simpl;
    [destruct Hevents as [[] | []] |].
  destruct (String.eqb_spec event "end") as [-> | Hend].
  - intros Hin. apply emitAll_leased in Hin. revert Hin.
    unfold emit. rewrite Hl. simpl. apply release_not_leased.
  - destruct (String.eqb_spec event "error") as [-> | Herror].
    + intros Hin. apply emitAll_leased in Hin. revert Hin.
      unfold emit. rewrite Hl. simpl. apply release_not_leased.
    + apply IH. destruct Hevents as [[? | ?] | [? | ?]]; try congruence; auto.
Qed.

(** C3.  [getDataFromSource] takes exactly one client from the pool for
    the cursor it opens, and whichever way the cursor is left, by
    end-of-data, by the consumer closing it early or by an error, that
    client is back in the pool afterwards. *)
Theorem cursor_client_is_released
    (sql : ParameterizedSqlStatement) (w w' : World) (stream : RowStream)
    (exit : Exit) :
  getDataFromSource sql w = (Return stream, w') →
  leased w' = nextClient w :: leased w
  ∧ ¬ In (nextClient w) (leased (finish exit stream w')).
Proof.
  intros H. split.
  - apply getDataFromSource_returns in H. tauto.
  - unfold finish. eapply released_on_end_or_error; [eassumption |].
    destruct exit; simpl; auto.
Qed.

End WithDatabase.

Section WithCollaborators.

Variable AbstractQuery : Type.
Variable convertQuery : AbstractQuery → Completion AbstractSqlQuery.
Variable makeSubQueriesAndMergeWithRoot :
  RowStream → list AbstractSqlNestedMany
  → (AbstractSqlQuery → M RowStream) → M RowStream.
Variable convertToActualStatement : AbstractSqlClauses → Completion string.
Variable convertParameters : list Primitive → Completion (list Primitive).
Variable getExpander : gmap string (list string) → Completion (Row → Row).
Variable database : string → list Primitive → Completion CursorData.

Local Abbreviation getDataFromSource := (getDataFromSource database).
Local Abbreviation convertStatement :=
  (convertStatement convertToActualStatement convertParameters).
Local Abbreviation queryDatabase :=
  (queryDatabase convertToActualStatement convertParameters getExpander
     database).
Local Abbreviation query :=
  (query AbstractQuery convertQuery makeSubQueriesAndMergeWithRoot
     convertToActualStatement
     convertParameters getExpander database).

Lemma queryDatabase_returns abstractSql w stream w' :
  queryDatabase abstractSql w = (Return stream, w') →
  ∃ sql,
    convertStatement abstractSql = Return sql
    ∧ log w' = Executed (nextClient w) (statement sql) (parameters sql) :: log w.
Proof.
  unfold Driver.queryDatabase.
  destruct (convertStatement abstractSql) as [sql |]; [| discriminate].
  unfold bind.
  destruct (getDataFromSource sql w) as [[raw |] w1] eqn:Hsource;
    [| discriminate].
  apply getDataFromSource_returns in Hsource as (_ & _ & _ & _ & Hlog).
  destruct (getExpander _); [| discriminate].
  intros [= <- <-]. eauto.
Qed.

(** The statement and the parameters sent for an abstract query are read
    off its clauses and its parameter array; the nested-many descriptors
    play no part. *)
Lemma convertStatement_ignores_nestedManys clauses parameters mapping mapping'
    nested nested' :
  convertStatement (Runtime.mkQuery clauses parameters mapping nested)
  = convertStatement (Runtime.mkQuery clauses parameters mapping' nested').
Proof. reflexivity. Qed.

(** With nested-many descriptors, [query] first executes the root
    statement and then hands the root stream to the merge engine, which
    starts in the world the root execution left. *)
Lemma query_merges_after_root q abstractSql w rootStream w1 :
  convertQuery q = Return abstractSql →
  nestedManys abstractSql ≠ [] →
  queryDatabase abstractSql w = (Return rootStream, w1) →
  query q w
  = makeSubQueriesAndMergeWithRoot rootStream (nestedManys abstractSql)
      queryDatabase w1.
Proof.
  intros Hq Hn Hroot. unfold Driver.query. rewrite Hq.
  unfold bind. rewrite Hroot.
  destruct (nestedManys abstractSql); [congruence | reflexivity].
Qed.

(** C9.  When the compiled abstract query has no nested-many descriptor,
    [query] is the execution of the root statement and nothing else: its
    result and its effect on the world are those of [queryDatabase],
    whatever the merge engine is. *)
Theorem query_without_nestedManys_is_root_stream
    (q : AbstractQuery) (abstractSql : AbstractSqlQuery) (w : World) :
  convertQuery q = Return abstractSql →
  length (nestedManys abstractSql) = 0 →
  query q w = queryDatabase abstractSql w.
Proof.
  intros Hq Hn. unfold Driver.query. rewrite Hq, Hn. simpl.
  unfold bind, ret.
  destruct (queryDatabase abstractSql w) as [[rootStream |] w']; reflexivity.
Qed.

End WithCollaborators.

Lemma query_without_nestedManys_is_root_stream_witness :
  sampleQuery articlesOnly tt freshWorld
  = sampleQueryDatabase articlesOnly freshWorld.
Proof.
  apply (query_without_nestedManys_is_root_stream unit
           (fun _ => Return articlesOnly)
           NestedMany.makeSubQueriesAndMergeWithRoot
           sampleStatement sampleParameters sampleExpander sampleDatabase
           tt articlesOnly freshWorld);
    reflexivity.
Defined.

Lemma cursor_client_is_released_witness :
  leased afterArticles = [0]
  ∧ ¬ In 0 (leased (finish ClosedByConsumer articlesStream afterArticles)).
Proof.
  apply (cursor_client_is_released sampleDatabase selectArticles freshWorld
           afterArticles articlesStream ClosedByConsumer).
  reflexivity.
Defined.

End DriverFacts.

(** ** Facts about the merge engine *)
Module MergeFacts.

Import NestedMany Samples.

Section WithQueryDatabase.

Variable queryDatabase : AbstractSqlQuery → M RowStream.

Local Abbreviation attach := (attach queryDatabase).
Local Abbreviation attachAll := (attachAll queryDatabase).
Local Abbreviation mergeRows := (mergeRows queryDatabase).
Local Abbreviation ranFor := (ranFor queryDatabase).
Local Abbreviation alwaysAnswers := (alwaysAnswers queryDatabase).

Lemma attach_returns row nestedMany w row' w' :
  attach row nestedMany w = (Return row', w') →
  ∃ children,
    ranFor nestedMany row children
    ∧ row' = <[alias nestedMany := VArray (VObject <$> children)]> row.
Proof.
  unfold NestedMany.attach.
  destruct (parentKeyValues _ row) as [keys |] eqn:Hkeys; [| discriminate].
  unfold bind, readToEnd, ret.
  destruct (queryDatabase _ w) as [[subStream |] w1] eqn:Hsub; [| discriminate].
  destruct (failure subStream) eqn:Hfail; [discriminate |].
  intros [= <- <-].
  exists (chunks subStream). split; [| reflexivity].
  exists keys, w, subStream, w1. auto.
Qed.

Lemma sameParent_refl nestedManys row : sameParent nestedManys row row.
Proof. intros field _. reflexivity. Qed.

Lemma attachAll_sameParent nestedManys row w row' w' :
  attachAll row nestedManys w = (Return row', w') →
  sameParent nestedManys row row'.
Proof.
  revert row w. induction nestedManys as [| nestedMany rest IH];
    intros row w; simpl.
  - intros [= <- <-]. apply sameParent_refl.
  - unfold bind at 1.
    destruct (attach row nestedMany w) as [[row1 |] w1] eqn:Hattach;
      [| discriminate].
    intros Hrest field Hfield.
    rewrite fmap_cons in Hfield. apply not_elem_of_cons in Hfield as [Hne Hfield].
    apply attach_returns in Hattach as (children & _ & ->).
    rewrite (IH _ _ Hrest field Hfield).
    apply lookup_insert_ne. congruence.
Qed.

(** Every descriptor leaves an array under its alias. *)
Lemma attachAll_arrays nestedManys row w row' w' :
  attachAll row nestedManys w = (Return row', w') →
  ∀ nestedMany, nestedMany ∈ nestedManys →
    ∃ items, row' !! alias nestedMany = Some (VArray items).
Proof.
  revert row w. induction nestedManys as [| first rest IH];
    intros row w; simpl.
  - intros _ nestedMany Hin. set_solver.
  - unfold bind at 1.
    destruct (attach row first w) as [[row1 |] w1] eqn:Hattach;
      [| discriminate].
    intros Hrest nestedMany Hin.
    apply elem_of_cons in Hin as [-> | Hlater]; [| eapply IH; eauto].
    destruct (decide (alias first ∈ alias <$> rest)) as [Hdup | Hfresh].
    + apply list_elem_of_fmap in Hdup as (other & Halias & Hother).
      rewrite Halias. eapply IH; eauto.
    + rewrite (attachAll_sameParent _ _ _ _ _ Hrest _ Hfresh).
      apply attach_returns in Hattach as (children & _ & ->).
      rewrite lookup_insert_eq. eauto.
Qed.

(** With distinct aliases, the array under a descriptor's alias holds the
    children its sub-query delivered for this parent. *)
Lemma attachAll_children nestedManys row w row' w' :
  NoDup (alias <$> nestedManys) →
  attachAll row nestedManys w = (Return row', w') →
  ∀ nestedMany, nestedMany ∈ nestedManys →
    ∃ parent children,
      sameParent nestedManys row parent
      ∧ ranFor nestedMany parent children
      ∧ row' !! alias nestedMany = Some (VArray (VObject <$> children)).
Proof.
  revert row w. induction nestedManys as [| first rest IH];
    intros row w Hnodup; simpl.
  - intros _ nestedMany Hin. set_solver.
  - rewrite fmap_cons in Hnodup. apply NoDup_cons in Hnodup as [Hfresh Hnodup].
    unfold bind at 1.
    destruct (attach row first w) as [[row1 |] w1] eqn:Hattach;
      [| discriminate].
    intros Hrest nestedMany Hin.
    apply attach_returns in Hattach as (children & Hran & ->).
    apply elem_of_cons in Hin as [-> | Hlater].
    + rewrite (attachAll_sameParent _ _ _ _ _ Hrest _ Hfresh).
      exists row, children. rewrite lookup_insert_eq.
      split; [apply sameParent_refl | auto].
    + destruct (IH _ _ Hnodup Hrest _ Hlater)
        as (parent & children' & Hsame & Hran' & Halias).
      exists parent, children'. split; [| auto].
      intros field Hfield. rewrite fmap_cons in Hfield.
      apply not_elem_of_cons in Hfield as [Hne Hfield].
      rewrite (Hsame field Hfield). apply lookup_insert_ne. congruence.
Qed.

Lemma mergeRows_returns nestedManys rows w out w' :
  mergeRows rows nestedManys w = (Return out, w') →
  Forall2 (fun row row' => ∃ w0 w1,
             attachAll row nestedManys w0 = (Return row', w1)) rows out.
Proof.
  revert w out. induction rows as [| row rest IH]; intros w out; simpl.
  - intros [= <- <-]. constructor.
  - unfold bind at 1.
    destruct (attachAll row nestedManys w) as [[row' |] w1] eqn:Hrow;
      [| discriminate].
    unfold bind at 1.
    destruct (mergeRows rest nestedManys w1) as [[out' |] w2] eqn:Hrest;
      [| discriminate].
    intros [= <- <-]. constructor; eauto.
Qed.

Lemma merge_returns rootStream nestedManys w out w' :
  makeSubQueriesAndMergeWithRoot rootStream nestedManys queryDatabase w
    = (Return out, w') →
  Forall2 (fun row row' => ∃ w0 w1,
             attachAll row nestedManys w0 = (Return row', w1))
    (chunks rootStream) (chunks out).
Proof.
  unfold makeSubQueriesAndMergeWithRoot.
  destruct (mergeRows _ _ w) as [[rows |] w1] eqn:Hrows; [| discriminate].
  destruct (failure rootStream); [discriminate |].
  intros [= <- <-]. simpl. eapply mergeRows_returns; eauto.
Qed.

Lemma parentKeyValues_total fields row :
  (∀ field, field ∈ fields → ∃ v, row !! field = Some v ∧ v ≠ VNull) →
  ∃ keys, parentKeyValues fields row = Return keys.
Proof.
  induction fields as [| field rest IH]; intros Hkeys; simpl; [eauto |].
  destruct (Hkeys field) as (v & -> & Hv); [set_solver |].
  destruct IH as (keys & ->); [intros; apply Hkeys; set_solver |].
  destruct v; eauto; congruence.
Qed.

Lemma attachAll_total all nestedManys row w :
  alwaysAnswers →
  (∀ nestedMany, nestedMany ∈ nestedManys → nestedMany ∈ all) →
  hasParentKeys all row →
  ∃ row' w', attachAll row nestedManys w = (Return row', w').
Proof.
  intros Hdb. revert row w.
  induction nestedManys as [| nestedMany rest IH]; intros row w Hsub Hkeys;
    simpl; [unfold ret; eauto |].
  unfold bind at 1, NestedMany.attach.
  destruct (parentKeyValues_total (internalIdentifierFields nestedMany) row)
    as (keys & ->).
  { intros field Hfield. apply (Hkeys nestedMany); [apply Hsub |]; set_solver. }
  unfold bind, readToEnd, ret.
  destruct (Hdb (queryGenerator nestedMany keys) w)
    as (subStream & w1 & -> & ->).
  apply IH; [intros; apply Hsub; set_solver |].
  intros other field Hother Hfield.
  destruct (decide (alias nestedMany = field)) as [<- | Hne].
  - rewrite lookup_insert_eq. eexists. split; [reflexivity | discriminate].
  - rewrite lookup_insert_ne by assumption. eapply Hkeys; eauto.
Qed.

Lemma mergeRows_total nestedManys rows w :
  alwaysAnswers →
  Forall (hasParentKeys nestedManys) rows →
  ∃ out w', mergeRows rows nestedManys w = (Return out, w').
Proof.
  intros Hdb Hrows. revert w.
  induction Hrows as [| row rest Hrow _ IH]; intros w; simpl;
    [unfold ret; eauto |].
  unfold bind at 1.
  destruct (attachAll_total nestedManys nestedManys row w Hdb)
    as (row' & w1 & ->); [auto | assumption |].
  unfold bind at 1.
  destruct (IH w1) as (out & w2 & ->). unfold ret. eauto.
Qed.

(** C2.  The merged stream has as many rows as the root stream, and its
    i-th row is the i-th parent row with the aliases of the descriptors
    added: whenever the merge returns a stream, this holds of it; and the
    merge does return a stream when the root stream ends normally, every
    parent key can be read on every root row and every sub-query is
    answered. *)
Theorem merge_keeps_rows_and_order
    (rootStream : RowStream) (nestedManys : list AbstractSqlNestedMany)
    (w : World) :
  (∀ out w',
     makeSubQueriesAndMergeWithRoot rootStream nestedManys queryDatabase w
       = (Return out, w') →
     length (chunks out) = length (chunks rootStream)
     ∧ ∀ i row', chunks out !! i = Some row' →
         ∃ row, chunks rootStream !! i = Some row
                ∧ sameParent nestedManys row row')
  ∧ (failure rootStream = None →
     alwaysAnswers →
     Forall (hasParentKeys nestedManys) (chunks rootStream) →
     ∃ out w',
       makeSubQueriesAndMergeWithRoot rootStream nestedManys queryDatabase w
         = (Return out, w')).
Proof.
  split.
  - intros out w' Hmerge. apply merge_returns in Hmerge.
    split; [symmetry; eapply Forall2_length; eauto |].
    intros i row' Hi.
    destruct (Forall2_lookup_r _ _ _ _ _ Hmerge Hi)
      as (row & Hrow & w0 & w1 & Hattach).
    exists row. split; [assumption |].
    eapply attachAll_sameParent; eauto.
  - intros Hroot Hdb Hkeys. unfold makeSubQueriesAndMergeWithRoot.
    destruct (mergeRows_total nestedManys (chunks rootStream) w Hdb Hkeys)
      as (out & w1 & ->).
    rewrite Hroot. eauto.
Qed.


End WithQueryDatabase.

(** The scenario of the specification, run through the driver: the root
    statement is executed first, one sub-query follows per article, every
    client is back in the pool, and the article without comments carries
    the empty array. *)
Example articles_with_comments :
  sampleQuery articlesQuery tt freshWorld = (Return mergedArticles, afterMerge).
Proof. vm_compute. reflexivity. Qed.

Lemma merge_keeps_rows_and_order_witness :
  length (chunks mergedArticles) = length (chunks articlesStream)
  ∧ ∀ i row', chunks mergedArticles !! i = Some row' →
      ∃ row, chunks articlesStream !! i = Some row
             ∧ sameParent [commentsRelation] row row'.
Proof.
  apply (proj1 (merge_keeps_rows_and_order sampleQueryDatabase articlesStream
                  [commentsRelation] afterArticles)
           mergedArticles afterMerge).
  vm_compute. reflexivity.
Defined.


End MergeFacts.

(** ** Facts about the nested-collection loop of [runAst] *)
Module RunAstFacts.

Import RunAst Samples.

Section Run.

Variable Item : Type.
Variable Items : Type.
Variable RELATIONAL_BATCH_SIZE : Z.
Variable runAst : NestedCollectionNode → option (list Item).
Variable mergeWithParentItems :
  list Item → Items → NestedCollectionNode → Items.
Variable nestedNode : NestedCollectionNode.

Local Abbreviation batchNode := (batchNode RELATIONAL_BATCH_SIZE nestedNode).
Local Abbreviation stopsAt :=
  (stopsAt Item RELATIONAL_BATCH_SIZE runAst nestedNode).
Local Abbreviation whileHasMore :=
  (whileHasMore Item Items RELATIONAL_BATCH_SIZE runAst mergeWithParentItems).
Local Abbreviation mergedItems :=
  (mergedItems Item Items RELATIONAL_BATCH_SIZE runAst mergeWithParentItems
     nestedNode).

(** The loop started at batch [first] stops after the first batch that is
    a last one, having requested and merged every batch up to it. *)
Lemma whileHasMore_stops n :
  ∀ first st fuel,
    (∀ k, k < n → stopsAt (first + k) = false) →
    stopsAt (first + n) = true →
    n < fuel →
    whileHasMore fuel nestedNode first st
    = Some {| items := mergedItems first (S n) (items Items st);
              requested := rev (batchNode <$> seq first (S n))
                           ++ requested Items st |}.
Proof.
  induction n as [| n IH]; intros first st fuel Hbefore Hstop Hfuel;
    (destruct fuel as [| fuel]; [lia |]); simpl.
  - rewrite Nat.add_0_r in Hstop. unfold RunAst.stopsAt in Hstop.
    rewrite Hstop. reflexivity.
  - pose proof (Hbefore 0 ltac:(lia)) as Hfirst.
    rewrite Nat.add_0_r in Hfirst. unfold RunAst.stopsAt in Hfirst.
    rewrite Hfirst. simpl.
    rewrite (IH (S first) _ fuel).
    + simpl. rewrite <- !app_assoc. reflexivity.
    + intros k Hk. replace (S first + k) with (first + S k) by lia.
      apply Hbefore. lia.
    + replace (S first + n) with (first + S n) by lia. assumption.
    + lia.
Qed.

(** As long as no batch is a last one the loop goes on. *)
Lemma whileHasMore_goes_on fuel :
  ∀ first st,
    (∀ k, k < fuel → stopsAt (first + k) = false) →
    whileHasMore fuel nestedNode first st = None.
Proof.
  induction fuel as [| fuel IH]; intros first st Hbefore; simpl;
    [reflexivity |].
  pose proof (Hbefore 0 ltac:(lia)) as Hfirst.
  rewrite Nat.add_0_r in Hfirst. unfold RunAst.stopsAt in Hfirst.
  rewrite Hfirst. simpl. apply IH.
  intros k Hk. replace (S first + k) with (first + S k) by lia.
  apply Hbefore. lia.
Qed.


End Run.


(** Three comments in batches of two: two fetches, at offsets 0 and 2. *)
Example comments_in_two_batches :
  whileHasMore string (list string) 2 fetchComments appendComments 5
    commentsNode 0 {| items := []; requested := [] |}
  = Some {| items := ["hi"; "yo"; "ok"];
            requested :=
              [mkNode "o2m" "comments" (mkQuery (Some 2%Z) (Some 2%Z) None);
               mkNode "o2m" "comments" (mkQuery (Some 2%Z) (Some 0%Z) None)] |}.
Proof. reflexivity. Qed.

End RunAstFacts.

(** ** Facts about [applyFilter] *)
Module ApplyQueryFacts.

Import ApplyQuery Samples.

(** An invariant of the threaded state that every step keeps is kept by
    the whole [forEach]. *)
Lemma forEach_invariant {A S} (P : S → Prop) (f : A → S → Outcome S) l :
  (∀ x s s', f x s = Done s' → P s → P s') →
  ∀ s s', forEach f l s = Done s' → P s → P s'.
Proof.
  intros Hstep. induction l as [| x rest IH]; intros s s'; simpl.
  - intros [= <-]. auto.
  - destruct (f x s) as [s1 | |] eqn:Hx; [| discriminate ..].
    intros Hrest Hs. eapply IH; eauto.
Qed.

Lemma forEach_app {A S} (f : A → S → Outcome S) l1 l2 s :
  forEach f (l1 ++ l2) s
  = match forEach f l1 s with
    | Done s' => forEach f l2 s'
    | Thrown e => Thrown e
    | OutOfFuel => OutOfFuel
    end.
Proof.
  revert s. induction l1 as [| x rest IH]; intros s; simpl; [reflexivity |].
  destruct (f x s); auto.
Qed.

Section ApplyFilter.

Variable relations : list Relation.
Variable nanoid : nat → string.

Local Abbreviation manyToOne := (manyToOne relations).
Local Abbreviation oneToMany := (oneToMany relations).
Local Abbreviation joinsAlong := (joinsAlong relations).
Local Abbreviation onlyManyToOne := (onlyManyToOne relations).
Local Abbreviation joinedManyToOne := (joinedManyToOne relations).
Local Abbreviation followRelation := (followRelation relations nanoid).
Local Abbreviation addJoin := (addJoin relations nanoid).
Local Abbreviation addJoins := (addJoins relations nanoid).
Local Abbreviation addWhereClauses := (addWhereClauses relations nanoid).
Local Abbreviation applyFilter := (applyFilter relations nanoid).

(** *** Joins *)

(** The relation [followRelation] looks up is a many-to-one relation of
    the collection it stands on. *)
Lemma find_isM2O parentCollection field relation :
  find (isM2O parentCollection field) relations = Some relation →
  manyToOne relation parentCollection field.
Proof.
  intros Hfind. apply find_some in Hfind as [Hin Htest].
  unfold isM2O in Htest. apply andb_prop in Htest as [Hcollection Hfield].
  apply String.eqb_eq in Hfield.
  destruct parentCollection as [parent |]; simpl in Hcollection;
    [| discriminate].
  apply String.eqb_eq in Hcollection. subst parent.
  split; [assumption |]. split; [reflexivity | assumption].
Qed.

Lemma find_isM2O_none parentCollection field :
  (∀ relation, ¬ manyToOne relation parentCollection field) →
  find (isM2O parentCollection field) relations = None.
Proof.
  intros Hnone. destruct (find _ relations) as [relation |] eqn:Hfind;
    [| reflexivity].
  apply find_isM2O in Hfind. exfalso. eapply Hnone. eassumption.
Qed.

Lemma followRelation_joinsAlong pathParts :
  ∀ parentCollection parentAlias st,
    ∃ added,
      joins (followRelation pathParts parentCollection parentAlias st)
      = joins st ++ added
      ∧ joinsAlong parentCollection
          (orElse parentAlias (template parentCollection)) pathParts added.
Proof.
  induction pathParts as [| field rest IH];
    intros parentCollection parentAlias st; simpl.
  - exists []. rewrite app_nil_r. split; [reflexivity | constructor].
  - destruct (find (isM2O parentCollection field) relations)
      as [m2oRelation |] eqn:Hfind.
    + apply find_isM2O in Hfind.
      assert (Hfield : many_field m2oRelation = field) by apply Hfind.
      rewrite Hfield.
      set (join := {| join_alias := nanoid (draws st) |}).
      set (st' := {| aliasMap := _; joins := _; draws := _ |}).
      destruct rest as [| next rest].
      * exists [join]. split; [reflexivity |].
        eapply joinsAlong_step; eauto. constructor.
      * destruct (IH (one_collection m2oRelation) (Some (nanoid (draws st)))
                    st') as (more & Hjoins & Hmore).
        exists (join :: more). rewrite Hjoins. subst st'. simpl.
        rewrite <- app_assoc. split; [reflexivity |].
        eapply joinsAlong_step; eauto.
    + exists []. rewrite app_nil_r. split; [reflexivity | constructor].
Qed.

Lemma joinedManyToOne_refl collection st : joinedManyToOne collection st st.
Proof.
  exists []. rewrite app_nil_r. split; [reflexivity |].
  exists []. split; [reflexivity | constructor].
Qed.

Lemma joinedManyToOne_trans collection a b c :
  joinedManyToOne collection a b →
  joinedManyToOne collection b c →
  joinedManyToOne collection a c.
Proof.
  intros (ab & Hab & groups1 & -> & H1) (bc & Hbc & groups2 & -> & H2).
  exists (concat groups1 ++ concat groups2).
  rewrite Hbc, Hab, <- app_assoc. split; [reflexivity |].
  exists (groups1 ++ groups2). rewrite concat_app.
  split; [reflexivity |]. apply Forall_app. split; assumption.
Qed.

Lemma addJoin_joinedManyToOne path collection st :
  joinedManyToOne collection st (addJoin path collection st).
Proof.
  unfold ApplyQuery.addJoin.
  destruct (followRelation_joinsAlong path (Some collection) None st)
    as (added & Hjoins & Hadded).
  exists added. split; [assumption |].
  exists [added]. simpl. rewrite app_nil_r. split; [reflexivity |].
  constructor; [| constructor]. exists path. exact Hadded.
Qed.

(** A path whose first field is no many-to-one field of the collection
    (the field of a one-to-many relation, say) adds no join. *)
Lemma addJoin_no_manyToOne field rest collection st :
  (∀ relation, ¬ manyToOne relation (Some collection) field) →
  addJoin (field :: rest) collection st = st.
Proof.
  intros Hnone. unfold ApplyQuery.addJoin. simpl.
  rewrite find_isM2O_none by assumption. reflexivity.
Qed.

Lemma forEach_related {A S} (R : S → S → Prop) (f : A → S → Outcome S) l :
  (∀ s, R s s) →
  (∀ a b c, R a b → R b c → R a c) →
  (∀ x s s', f x s = Done s' → R s s') →
  ∀ s s', forEach f l s = Done s' → R s s'.
Proof.
  intros Hrefl Htrans Hstep. induction l as [| x rest IH]; intros s s'; simpl.
  - intros [= <-]. apply Hrefl.
  - destruct (f x s) as [s1 | |] eqn:Hx; [| discriminate ..].
    intros Hrest. eapply Htrans; eauto.
Qed.

Lemma addJoins_joinedManyToOne fuel :
  ∀ filter collection st st',
    addJoins fuel filter collection st = Done st' →
    joinedManyToOne collection st st'.
Proof.
  induction fuel as [| fuel IH]; intros filter collection st st'; simpl;
    [discriminate |].
  destruct (objectEntries filter) as [entries |]; [| discriminate].
  apply (forEach_related (joinedManyToOne collection));
    [apply joinedManyToOne_refl | apply joinedManyToOne_trans |].
  intros [key value] s s'.
  destruct (isLogicalKey key).
  - destruct (arrayItems _ value) as [subFilters |]; [| discriminate].
    destruct (if String.eqb key "_or" then someEmpty subFilters
              else Return false) as [[|] |]; [| | discriminate].
    + intros [= <-]. apply joinedManyToOne_refl.
    + apply (forEach_related (joinedManyToOne collection));
        [apply joinedManyToOne_refl | apply joinedManyToOne_trans |].
      intros subFilter. apply IH.
  - destruct (getFilterPath key value) as [filterPath |]; [| discriminate].
    destruct (Nat.ltb 1 (length filterPath)); intros [= <-];
      [apply addJoin_joinedManyToOne | apply joinedManyToOne_refl].
Qed.

(** The builder that [applyFilter] returns selects from the same table,
    and its joins are those of the root query followed by those
    [addJoins] added: the where-clauses add none. *)
Lemma applyFilterWith_builder addWhere fuel rootQuery rootFilter collection
    draws0 b draws' :
  applyFilterWith relations nanoid addWhere fuel rootQuery rootFilter
    collection draws0 = Done (b, draws') →
  selected b = selected rootQuery
  ∧ table b = table rootQuery
  ∧ ∃ added,
      joined b = joined rootQuery ++ added ∧ onlyManyToOne collection added.
Proof.
  unfold applyFilterWith.
  destruct (addJoins fuel rootFilter collection _) as [js | |] eqn:Hjoins;
    [| discriminate ..].
  destruct (addWhere _ rootFilter collection LAnd _)
    as [ws | |]; [| discriminate ..].
  intros [= <- _]. simpl. repeat split.
  apply addJoins_joinedManyToOne in Hjoins. exact Hjoins.
Qed.

(** *** Where-clauses *)

Lemma rebase_rebase before middle r :
  rebase before (rebase middle r) = rebase (before ++ middle) r.
Proof. destruct r; simpl; [rewrite app_assoc |..]; reflexivity. Qed.

Lemma forEach_appends {A} (f : A → WhereState → Outcome WhereState) l :
  (∀ x, Appends (f x)) → Appends (forEach f l).
Proof.
  intros Hstep. induction l as [| x rest IH]; intros st; simpl.
  - rewrite app_nil_r. destruct st; reflexivity.
  - rewrite (Hstep x st).
    destruct (f x {| wheres := []; drawn := drawn st |}) as [r | |]; simpl;
      [| reflexivity ..].
    rewrite IH. simpl. rewrite (IH r), rebase_rebase. reflexivity.
Qed.

Lemma addWhereClauses_appends fuel aliases filter collection logical :
  Appends (addWhereClauses fuel aliases filter collection logical).
Proof.
  destruct fuel as [| fuel]; intros st; simpl; [reflexivity |].
  destruct (objectEntries filter) as [entries |]; [| reflexivity].
  revert st. apply forEach_appends. intros [key value] st.
  destruct (isLogicalKey key).
  - destruct (if String.eqb key "_or" then _ else Return false)
      as [[|] |]; [| reflexivity ..].
    simpl. rewrite app_nil_r. destruct st; reflexivity.
  - destruct (getFilterPath key value) as [filterPath |]; [| reflexivity].
    destruct (getOperation key value) as [[filterOperator filterValue] |];
      [| reflexivity].
    destruct (Nat.ltb 1 (length filterPath)); [| reflexivity].
    destruct (find _ relations) as [o2mRelation |]; [| reflexivity].
    simpl. destruct (applyQueryWith _ _ _ _ _ _ _ _) as [[b d] | |];
      reflexivity.
Qed.

Lemma addWhereClauses_entries_app fuel aliases entries1 entries2 collection
    logical st :
  addWhereClauses (S fuel) aliases (JObj (entries1 ++ entries2)) collection
    logical st
  = match addWhereClauses (S fuel) aliases (JObj entries1) collection logical
            st with
    | Done st' =>
        addWhereClauses (S fuel) aliases (JObj entries2) collection logical st'
    | Thrown e => Thrown e
    | OutOfFuel => OutOfFuel
    end.
Proof. simpl. apply forEach_app. Qed.

Lemma getFilterPath_head key value path :
  getFilterPath key value = Return path → ∃ rest, path = key :: rest.
Proof.
  destruct value as [| b | n | text | items | [| [key' value'] entries]];
    simpl; try discriminate; try (intros [= <-]; eauto).
  destruct (startsWithUnderscore key'); [intros [= <-]; eauto |].
  destruct (getFilterPath key' value'); [| discriminate].
  intros [= <-]. eauto.
Qed.

(** The relation [addWhereClauses] looks up is a one-to-many relation of
    the collection, and it finds one whenever the schema holds one. *)
Lemma find_isO2M collection field relation :
  find (isO2M (Some collection) field) relations = Some relation →
  oneToMany relation collection field.
Proof.
  intros Hfind. apply find_some in Hfind as [Hin Htest].
  unfold isO2M in Htest. apply andb_prop in Htest as [Hcollection Hfield].
  destruct (one_collection relation) as [one |] eqn:Hone; [| discriminate].
  apply String.eqb_eq in Hcollection. subst one.
  destruct (one_field relation) as [oneField |] eqn:HoneField;
    simpl in Hfield; [| discriminate].
  apply String.eqb_eq in Hfield. subst oneField.
  split; [assumption |]. split; assumption.
Qed.

Lemma find_isO2M_some collection field relation :
  oneToMany relation collection field →
  ∃ found, find (isO2M (Some collection) field) relations = Some found.
Proof.
  intros (Hin & Hone & Hfield).
  destruct (find _ relations) as [found |] eqn:Hfind; [eauto |].
  apply (find_none _ _ Hfind) in Hin. unfold isO2M in Hin.
  rewrite Hone, Hfield in Hin. simpl in Hin.
  rewrite !String.eqb_refl in Hin. discriminate.
Qed.

(** A filter that leads through a one-to-many field is compiled to
    [whereIn] with a sub-query on the many side; the sub-query has its own
    joins. *)
Lemma addWhereClauses_o2m fuel aliases field field' value' others collection
    logical st st' relation :
  oneToMany relation collection field →
  isLogicalKey field = false →
  startsWithUnderscore field' = false →
  addWhereClauses (S fuel) aliases
    (JObj [(field, JObj ((field', value') :: others))]) collection logical st
    = Done st' →
  ∃ o2mRelation subQuery,
    oneToMany o2mRelation collection field
    ∧ wheres st'
      = wheres st ++
        [WithBuilder (Some logical) "whereIn"
           (collection +:+ "." +:+ orElse (one_primary o2mRelation) "id")
           subQuery]
    ∧ selected subQuery = [many_field o2mRelation]
    ∧ table subQuery = Some (many_collection o2mRelation)
    ∧ onlyManyToOne (many_collection o2mRelation) (joined subQuery).
Proof.
  intros Hrelation Hkey Hfield'.
  destruct (find_isO2M_some _ _ _ Hrelation) as [o2mRelation Hfind].
  cbn [ApplyQuery.addWhereClauses objectEntries forEach].
  rewrite Hkey. cbn [getFilterPath]. rewrite Hfield'.
  destruct (getFilterPath field' value') as [path |] eqn:Hpath;
    [| discriminate].
  apply getFilterPath_head in Hpath as [rest ->].
  destruct (getOperation field _) as [[filterOperator filterValue] |];
    [| discriminate].
  cbn [length Nat.ltb Nat.leb hd]. rewrite Hfind.
  destruct (applyQueryWith _ _ _ _ _ _ _ _) as [[subQuery d] | |] eqn:Hsub;
    [| discriminate ..].
  intros [= <-]. cbn [wheres].
  apply applyFilterWith_builder in Hsub
    as (Hselected & Htable & added & Hjoined & Hadded).
  exists o2mRelation, subQuery. simpl in Hjoined. subst added.
  split; [eapply find_isO2M; eassumption |]. auto.
Qed.

(** *** The text of the WHERE clause *)
Section Compile.

Variable compileCall : string → list JsValue → string.
Variable compileSubquery : string → string → CompiledQuery → string.

Local Abbreviation compileStatement :=
  (compileStatement compileCall compileSubquery).
Local Abbreviation whereSql := (whereSql compileCall compileSubquery).
Local Abbreviation whereText :=
  (whereText relations nanoid compileCall compileSubquery).
Local Abbreviation sameRestriction :=
  (sameRestriction relations nanoid compileCall compileSubquery).
Local Abbreviation compile := (compile relations nanoid).

(** A call whose callback recorded nothing leaves the text as it is. *)
Lemma whereSqlParts_empty_group accessor method before after sqlParts :
  whereSqlParts compileStatement (before ++ Group accessor method [] :: after)
    sqlParts
  = whereSqlParts compileStatement (before ++ after) sqlParts.
Proof.
  revert sqlParts. induction before as [| statement before IH];
    intros sqlParts; simpl; [reflexivity | apply IH].
Qed.

Lemma compileEach_app step calls1 calls2 draws0 :
  compileEach step (calls1 ++ calls2) draws0
  = match compileEach step calls1 draws0 with
    | Done (clauses1, draws1) =>
        match compileEach step calls2 draws1 with
        | Done (clauses2, draws2) => Done (clauses1 ++ clauses2, draws2)
        | Thrown e => Thrown e
        | OutOfFuel => OutOfFuel
        end
    | Thrown e => Thrown e
    | OutOfFuel => OutOfFuel
    end.
Proof.
  revert draws0. induction calls1 as [| call calls1 IH]; intros draws0; simpl.
  - destruct (compileEach step calls2 draws0) as [[clauses2 draws2] | |];
      reflexivity.
  - destruct (step call draws0) as [[clause draws1] | |]; [| reflexivity ..].
    rewrite IH.
    destruct (compileEach step calls1 draws1) as [[clauses1 draws2] | |];
      [| reflexivity ..].
    destruct (compileEach step calls2 draws2) as [[clauses2 draws3] | |];
      reflexivity.
Qed.

(** The callback of an [_or] with an empty array records nothing when
    knex calls it, and draws no identifier. *)
Lemma compile_empty_or fuel accessor collection aliases draws0 :
  compile (S fuel)
    (WithCallback accessor "where" (SubFilters (JArr []) collection "_or"
                                      aliases)) draws0
  = Done (Group accessor "where" [], draws0).
Proof. reflexivity. Qed.

Lemma sameRestriction_empty_or fuel accessor collection aliases before r :
  sameRestriction (S fuel)
    (rebase (before ++
             [WithCallback accessor "where"
                (SubFilters (JArr []) collection "_or" aliases)]) r)
    (rebase before r).
Proof.
  destruct r as [st | |]; [| reflexivity | exact I].
  cbn [ApplyQuery.sameRestriction rebase wheres drawn].
  unfold ApplyQuery.whereText, compileWheres.
  rewrite <- app_assoc, !compileEach_app.
  destruct (compileEach _ before (drawn st)) as [[clauses1 draws1] | |];
    [| reflexivity ..].
  rewrite compileEach_app.
  cbn [compileEach]. rewrite compile_empty_or.
  destruct (compileEach _ (wheres st) draws1) as [[clauses2 draws2] | |];
    [| reflexivity ..].
  f_equal. f_equal. unfold ApplyQuery.whereSql. simpl.
  rewrite whereSqlParts_empty_group. reflexivity.
Qed.

(** C5.  An [_or] with an empty array records one where-call whose
    callback records nothing when knex calls it.  That call compiles to
    no text: alone it leaves the WHERE clause empty, after other
    statements it leaves their text unchanged, and a filter holding such
    an [_or] beside other keys restricts exactly as the filter without
    it. *)
Theorem empty_or_compiles_to_no_predicate
    (fuel compileFuel : nat) (aliases : gmap string string)
    (collection : string) (logical : Logical) (st : WhereState)
    (before after : list (string * JsValue))
    (statements : list WhereClause) (draws0 : nat) :
  addWhereClauses (S fuel) aliases (JObj [("_or", JArr [])]) collection
    logical st
  = Done {| wheres := wheres st ++
              [WithCallback (Some logical) "where"
                 (SubFilters (JArr []) collection "_or" aliases)];
            drawn := drawn st |}
  ∧ compile (S compileFuel)
      (WithCallback (Some logical) "where"
         (SubFilters (JArr []) collection "_or" aliases)) draws0
    = Done (Group (Some logical) "where" [], draws0)
  ∧ whereSql [Group (Some logical) "where" []] = ""
  ∧ whereSql (statements ++ [Group (Some logical) "where" []])
    = whereSql statements
  ∧ sameRestriction (S compileFuel)
      (addWhereClauses (S fuel) aliases
         (JObj (before ++ ("_or", JArr []) :: after)) collection logical st)
      (addWhereClauses (S fuel) aliases (JObj (before ++ after)) collection
         logical st).
Proof.
  split; [reflexivity |]. split; [reflexivity |]. split; [reflexivity |].
  split.
  - unfold ApplyQuery.whereSql.
    rewrite whereSqlParts_empty_group, app_nil_r. reflexivity.
  - change (before ++ ("_or", JArr []) :: after)
      with (before ++ [("_or", JArr [])] ++ after).
    rewrite !addWhereClauses_entries_app.
    destruct (addWhereClauses (S fuel) aliases (JObj before) collection
                logical st) as [st1 | |]; [| reflexivity | exact I].
    rewrite addWhereClauses_entries_app.
    assert (Hor : addWhereClauses (S fuel) aliases (JObj [("_or", JArr [])])
                    collection logical st1
                  = Done {| wheres := wheres st1 ++
                              [WithCallback (Some logical) "where"
                                 (SubFilters (JArr []) collection "_or"
                                    aliases)];
                            drawn := drawn st1 |}) by reflexivity.
    rewrite Hor.
    rewrite (addWhereClauses_appends (S fuel) aliases (JObj after) collection
               logical {| wheres := wheres st1 ++ _; drawn := drawn st1 |}).
    rewrite (addWhereClauses_appends (S fuel) aliases (JObj after) collection
               logical st1).
    apply sameRestriction_empty_or.
Qed.

End Compile.

End ApplyFilter.

End ApplyQueryFacts.

(** ** Relations to one and relations to many *)
Module RelationFacts.

Import ApplyQuery Driver Samples.

(** The empty [_or] on the articles: one where-call whose callback records
    nothing when it is called, no join, and an empty WHERE clause however
    plain calls are compiled. *)
Example empty_or_on_articles compileCall compileSubquery :
  applyFilter blogRelations sampleNanoid 5 selectFromArticles emptyOr
    "articles" 0
  = Done (mkBuilder ["*"] (Some "articles") []
            [WithCallback (Some LAnd) "where"
               (SubFilters (JArr []) "articles" "_or" ∅)], 0)
  ∧ compileWheres blogRelations sampleNanoid 1
      [WithCallback (Some LAnd) "where"
         (SubFilters (JArr []) "articles" "_or" ∅)] 0
    = Done ([Group (Some LAnd) "where" []], 0)
  ∧ whereSql compileCall compileSubquery [Group (Some LAnd) "where" []] = "".
Proof. repeat split; reflexivity. Qed.

(** The filter on the author's name joins the users; the filter on the
    comments joins nothing and asks for the articles whose key is among
    the keys a sub-query on the comments selects. *)
Example filter_through_M2O_joins :
  applyFilter blogRelations sampleNanoid 5 selectFromArticles byAuthorName
    "articles" 0
  = Done (mkBuilder ["*"] (Some "articles")
            [mkJoin "alias0" (Some "users") "articles.author" "alias0.id"]
            [Plain (Some LAnd) "where"
               [JObj [("alias0.name", JStr "Rijk")]]],
          1).
Proof. vm_compute. reflexivity. Qed.

Example filter_through_O2M_asks_subquery :
  applyFilter blogRelations sampleNanoid 5 selectFromArticles byCommentBody
    "articles" 0
  = Done (mkBuilder ["*"] (Some "articles") []
            [WithBuilder (Some LAnd) "whereIn" "articles.id"
               (mkBuilder ["article"] (Some "comments") []
                  [Plain (Some LAnd) "where"
                     [JStr "comments.body"; JStr "like"; JStr "%hi%"]])],
          0).
Proof. vm_compute. reflexivity. Qed.



End RelationFacts.

(** ** Facts about the shape of filters *)
Module FilterShapeFacts.

Import ApplyQuery FilterShapes Samples.

(** X1.  The path [getFilterPath] returns starts with the key it was
    given, and none of the fields after it is an operator: no field of
    the path but the first starts with an underscore. *)
Theorem getFilterPath_shape :
  ∀ (value : JsValue) (key : string) (path : list string),
    getFilterPath key value = Return path →
    ∃ rest,
      path = key :: rest
      ∧ Forall (fun field => startsWithUnderscore field = false) rest.
Proof.
  fix IH 1. intros value key path.
  destruct value as [| b | n | s | items | entries]; simpl;
    try discriminate;
    try (intros [= <-]; exists []; split; [reflexivity | constructor]).
  destruct entries as [| [key' value'] entries]; [discriminate |].
  destruct (startsWithUnderscore key') eqn:Hkey'.
  - intros [= <-]. exists []. split; [reflexivity | constructor].
  - destruct (getFilterPath key' value') as [path' |] eqn:Hpath';
      [| discriminate].
    intros [= <-].
    destruct (IH value' key' path' Hpath') as (rest & -> & Hrest).
    exists (key' :: rest). split; [reflexivity |].
    constructor; assumption.
Qed.

Lemma getFilterPath_shape_witness :
  ∃ rest,
    ["author"; "name"] = "author" :: rest
    ∧ Forall (fun field => startsWithUnderscore field = false) rest.
Proof.
  apply (getFilterPath_shape
           (JObj [("name", JObj [("_eq", JStr "Rijk")])]) "author").
  reflexivity.
Defined.

(** X2.  The operator [getOperation] returns is never [_and] or [_or]: it
    is [_eq], or a key of the filter that starts with an underscore. *)
Theorem getOperation_operator :
  ∀ (value : JsValue) (key operator : string) (compareValue : JsValue),
    getOperation key value = Return (operator, compareValue) →
    startsWithUnderscore operator = true
    ∧ operator ≠ "_and" ∧ operator ≠ "_or".
Proof.
  fix IH 1. intros value key operator compareValue.
  destruct value as [| b | n | s | items | entries]; simpl;
    (destruct (startsWithUnderscore key && negb (String.eqb key "_and")
               && negb (String.eqb key "_or")) eqn:Hkey;
     [ intros [= <- _];
       apply andb_prop in Hkey as [Hkey Hor];
       apply andb_prop in Hkey as [Hkey Hand];
       apply negb_true_iff, String.eqb_neq in Hor, Hand; auto
     | ]);
    try (intros [= <- _]; repeat split; discriminate).
  destruct entries as [| [key' value'] entries]; [discriminate |].
  apply IH.
Qed.

Lemma getOperation_operator_witness :
  startsWithUnderscore "_contains" = true
  ∧ "_contains" ≠ "_and" ∧ "_contains" ≠ "_or".
Proof.
  apply (getOperation_operator (JObj [("body", JObj [("_contains", JStr "hi")])])
           "comments" "_contains" (JStr "hi")).
  reflexivity.
Defined.

Lemma getOperation_at_operator operator value :
  startsWithUnderscore operator = true →
  operator ≠ "_and" →
  operator ≠ "_or" →
  getOperation operator value = Return (operator, value).
Proof.
  intros Hop Hand Hor. apply String.eqb_neq in Hand, Hor.
  destruct value; simpl; rewrite Hop, Hand, Hor; reflexivity.
Qed.

(** X3.  Reading back a nested filter: for a key and fields that are no
    operators and an operator that is no combinator, the path of
    [{ key: { f1: ... { operator: value } } }] is the key followed by the
    fields, and its operation is the operator with its value. *)
Theorem nested_filter_is_read_back
    (key : string) (fields : list string) (operator : string)
    (value : JsValue) :
  startsWithUnderscore key = false →
  Forall (fun field => startsWithUnderscore field = false) fields →
  startsWithUnderscore operator = true →
  operator ≠ "_and" →
  operator ≠ "_or" →
  getFilterPath key (nested fields operator value) = Return (key :: fields)
  ∧ getOperation key (nested fields operator value) = Return (operator, value).
Proof.
  intros Hkey Hfields Hop Hand Hor. revert key Hkey.
  induction Hfields as [| field fields Hfield _ IH]; intros key Hkey; simpl.
  - rewrite Hop, Hkey. simpl.
    rewrite getOperation_at_operator by assumption. auto.
  - rewrite Hfield, Hkey. simpl.
    destruct (IH field Hfield) as [-> ->]. auto.
Qed.

Lemma nested_filter_is_read_back_witness :
  getFilterPath "author" (nested ["name"] "_eq" (JStr "Rijk"))
    = Return ["author"; "name"]
  ∧ getOperation "author" (nested ["name"] "_eq" (JStr "Rijk"))
    = Return ("_eq", JStr "Rijk").
Proof.
  apply nested_filter_is_read_back;
    [reflexivity | repeat constructor | reflexivity | discriminate
    | discriminate].
Defined.

(** X4.  How many calls [applyFilterToQuery] records: none for an
    operator it does not know, two for [_null], [_nnull], [_empty] and
    [_nempty] compared with [false] (the test and its opposite), and one
    otherwise. *)
Theorem filterCalls_count
    (key operator : string) (compareValue : JsValue) (logical : Logical) :
  length (filterCalls key operator compareValue logical)
  = if isIn operator knownOperators
    then if isIn operator flagOperators && isFalse compareValue then 2 else 1
    else 0.
Proof.
  unfold filterCalls, when, isIn, knownOperators, flagOperators. simpl.
  repeat match goal with
         | |- context [String.eqb operator ?s] =>
             destruct (String.eqb_spec operator s) as [-> | ?]; simpl
         end;
    try reflexivity;
    destruct compareValue as [| [|] | | | |]; reflexivity.
Qed.

Lemma splitComma_not_empty s : splitComma s ≠ [].
Proof.
  destruct s as [| c rest]; simpl; [discriminate |].
  destruct (Ascii.eqb c ","); [discriminate |].
  destruct (splitComma rest); discriminate.
Qed.

(** X5.  [split(',')] loses nothing: joining the parts with commas gives
    the string back, there is always at least one part, and no part holds
    a comma. *)
Theorem splitComma_join (s : string) :
  String.concat "," (splitComma s) = s
  ∧ splitComma s ≠ []
  ∧ Forall (fun part => hasComma part = false) (splitComma s).
Proof.
  split; [| split; [apply splitComma_not_empty |]].
  - induction s as [| c rest IH]; simpl; [reflexivity |].
    destruct (Ascii.eqb_spec c ",") as [-> | Hc].
    + pose proof (splitComma_not_empty rest) as Hne.
      simpl. destruct (splitComma rest) as [| part parts]; [congruence |].
      rewrite IH. reflexivity.
    + pose proof (splitComma_not_empty rest) as Hne.
      destruct (splitComma rest) as [| part parts]; [congruence |].
      rewrite <- IH. destruct parts; reflexivity.
  - induction s as [| c rest IH]; simpl; [repeat constructor |].
    destruct (Ascii.eqb_spec c ",") as [-> | Hc].
    + constructor; [reflexivity | assumption].
    + destruct (splitComma rest) as [| part parts]; [repeat constructor |].
      * unfold hasComma. simpl.
        apply Ascii.eqb_neq in Hc. rewrite Hc. reflexivity.
      * apply Forall_cons in IH as [Hpart Hparts].
        constructor; [| assumption].
        unfold hasComma in *. simpl.
        apply Ascii.eqb_neq in Hc. rewrite Hc. assumption.
Qed.

End FilterShapeFacts.

(** ** More facts about [applyFilter] *)
Module ApplyFilterFacts.

Import ApplyQuery FilterShapes Samples MoreSamples.

Section ApplyFilter.

Variable relations : list Relation.
Variable nanoid : nat → string.

Local Abbreviation followRelation := (followRelation relations nanoid).
Local Abbreviation addJoins := (addJoins relations nanoid).
Local Abbreviation addWhereClauses := (addWhereClauses relations nanoid).
Local Abbreviation applyFilter := (applyFilter relations nanoid).
Local Abbreviation joinsAdded := (joinsAdded nanoid).

(** X6.  An [_or] one of whose alternatives is the empty object is
    skipped altogether: the filter adds the joins and the where-calls of
    the filter without that [_or], whatever its other alternatives
    are. *)
Theorem or_with_empty_alternative_is_skipped
    (fuel : nat) (aliases : gmap string string) (collection : string)
    (logical : Logical) (subFilters : list JsValue)
    (before after : list (string * JsValue)) :
  someEmpty subFilters = Return true →
  (∀ st,
     addJoins (S fuel) (JObj (before ++ ("_or", JArr subFilters) :: after))
       collection st
     = addJoins (S fuel) (JObj (before ++ after)) collection st)
  ∧ (∀ st,
       addWhereClauses (S fuel) aliases
         (JObj (before ++ ("_or", JArr subFilters) :: after)) collection
         logical st
       = addWhereClauses (S fuel) aliases (JObj (before ++ after)) collection
           logical st)
  ∧ (∀ rootQuery draws0,
       applyFilter (S fuel) rootQuery
         (JObj (before ++ ("_or", JArr subFilters) :: after)) collection draws0
       = applyFilter (S fuel) rootQuery (JObj (before ++ after)) collection
           draws0).
Proof.
  intros Hempty.
  assert (Hjoins : ∀ st,
    addJoins (S fuel) (JObj (before ++ ("_or", JArr subFilters) :: after))
      collection st
    = addJoins (S fuel) (JObj (before ++ after)) collection st).
  { intros st. simpl. rewrite !ApplyQueryFacts.forEach_app.
    destruct (forEach _ before st); [| reflexivity ..].
    simpl. rewrite Hempty. reflexivity. }
  assert (Hwheres : ∀ aliases' st,
    addWhereClauses (S fuel) aliases'
      (JObj (before ++ ("_or", JArr subFilters) :: after)) collection logical st
    = addWhereClauses (S fuel) aliases' (JObj (before ++ after)) collection
        logical st).
  { intros aliases' st. simpl. rewrite !ApplyQueryFacts.forEach_app.
    destruct (forEach _ before st); [| reflexivity ..].
    simpl. rewrite Hempty. reflexivity. }
  split; [exact Hjoins |]. split; [apply Hwheres |].
  intros rootQuery draws0.
  unfold ApplyQuery.applyFilter, applyFilterWith.
  rewrite Hjoins.
  destruct (addJoins (S fuel) (JObj (before ++ after)) collection _)
    as [js | |]; [| reflexivity ..].
  simpl. rewrite !ApplyQueryFacts.forEach_app.
  destruct (forEach _ before _); [| reflexivity ..].
  simpl. rewrite Hempty. reflexivity.
Qed.

(** X7.  [addWhereClauses] only appends: the where-calls the builder
    already holds stay in front, in their order, and the calls that are
    added, like the identifiers that are drawn, do not depend on them. *)
Theorem addWhereClauses_only_appends
    (fuel : nat) (aliases : gmap string string) (filter : Filter)
    (collection : string) (logical : Logical) (st st' : WhereState) :
  addWhereClauses fuel aliases filter collection logical st = Done st' →
  ∃ added,
    wheres st' = wheres st ++ added
    ∧ ∀ existing,
        addWhereClauses fuel aliases filter collection logical
          {| wheres := existing; drawn := drawn st |}
        = Done {| wheres := existing ++ added; drawn := drawn st' |}.
Proof.
  rewrite (ApplyQueryFacts.addWhereClauses_appends relations nanoid fuel
             aliases filter collection logical st).
  destruct (addWhereClauses fuel aliases filter collection logical
              {| wheres := []; drawn := drawn st |}) as [r | |] eqn:Hr;
    simpl; [| discriminate ..].
  intros [= <-]. exists (wheres r). split; [reflexivity |].
  intros existing.
  rewrite (ApplyQueryFacts.addWhereClauses_appends relations nanoid fuel
             aliases filter collection logical
             {| wheres := existing; drawn := drawn st |}).
  simpl. rewrite Hr. reflexivity.
Qed.


(** *** Joins and their identifiers *)

Lemma joinsAdded_refl st : joinsAdded st st.
Proof.
  exists []. rewrite app_nil_r, Nat.add_0_r. auto.
Qed.

Lemma joinsAdded_trans a b c :
  joinsAdded a b → joinsAdded b c → joinsAdded a c.
Proof.
  intros (ab & Hjab & Hdab & Haab) (bc & Hjbc & Hdbc & Habc).
  exists (ab ++ bc). rewrite Hjbc, Hjab, Hdbc, Hdab, length_app.
  split; [rewrite app_assoc; reflexivity |]. split; [lia |].
  rewrite fmap_app, seq_app, fmap_app, Haab, Habc, Hdab. reflexivity.
Qed.

Lemma followRelation_joinsAdded pathParts :
  ∀ parentCollection parentAlias st,
    joinsAdded st (followRelation pathParts parentCollection parentAlias st).
Proof.
  induction pathParts as [| field rest IH];
    intros parentCollection parentAlias st; simpl; [apply joinsAdded_refl |].
  destruct (find _ relations) as [m2oRelation |]; [| apply joinsAdded_refl].
  set (st' := {| aliasMap := _; joins := _; draws := _ |}).
  assert (Hst' : joinsAdded st st').
  { eexists [_]. simpl. repeat split. lia. }
  destruct rest; [assumption |].
  eapply joinsAdded_trans; [exact Hst' | apply IH].
Qed.

Lemma addJoins_joinsAdded fuel :
  ∀ filter collection st st',
    addJoins fuel filter collection st = Done st' → joinsAdded st st'.
Proof.
  induction fuel as [| fuel IH]; intros filter collection st st'; simpl;
    [discriminate |].
  destruct (objectEntries filter) as [entries |]; [| discriminate].
  apply (ApplyQueryFacts.forEach_related joinsAdded);
    [apply joinsAdded_refl | apply joinsAdded_trans |].
  intros [key value] s s'.
  destruct (isLogicalKey key).
  - destruct (arrayItems _ value) as [subFilters |]; [| discriminate].
    destruct (if String.eqb key "_or" then someEmpty subFilters
              else Return false) as [[|] |]; [| | discriminate].
    + intros [= <-]. apply joinsAdded_refl.
    + apply (ApplyQueryFacts.forEach_related joinsAdded);
        [apply joinsAdded_refl | apply joinsAdded_trans |].
      intros subFilter. apply IH.
  - destruct (getFilterPath key value) as [filterPath |]; [| discriminate].
    destruct (Nat.ltb 1 (length filterPath)); intros [= <-];
      [apply followRelation_joinsAdded | apply joinsAdded_refl].
Qed.

(** X8.  [addJoins] keeps the joins the builder has and draws one
    identifier for each join it adds, which becomes the alias of that
    join; when [nanoid] never repeats itself, the aliases of the added
    joins are pairwise distinct. *)
Theorem addJoins_draws_an_alias_per_join
    (fuel : nat) (filter : Filter) (collection : string)
    (st st' : JoinState) :
  addJoins fuel filter collection st = Done st' →
  ∃ added,
    joins st' = joins st ++ added
    ∧ draws st' = draws st + length added
    ∧ join_alias <$> added = nanoid <$> seq (draws st) (length added)
    ∧ ((∀ i j, nanoid i = nanoid j → i = j) → NoDup (join_alias <$> added)).
Proof.
  intros H. apply addJoins_joinsAdded in H as (added & Hj & Hd & Ha).
  exists added. repeat split; [assumption .. |].
  intros Hinj. rewrite Ha. apply NoDup_fmap_2; [exact Hinj |].
  apply NoDup_ListNoDup, seq_NoDup.
Qed.

(** *** The column of a where-call on a joined field *)

Lemma append_length a b :
  String.length (a +:+ b) = String.length a + String.length b.
Proof. induction a as [| c a IH]; simpl; [reflexivity | rewrite IH; lia]. Qed.

Lemma leaf_key_differs field leaf :
  String.concat "+" [leaf] ≠ String.concat "+" [field; leaf].
Proof.
  simpl. intros H. apply (f_equal String.length) in H.
  change (field ++ "+" ++ leaf)%string with (field +:+ "+" +:+ leaf) in H.
  rewrite !append_length in H. simpl in H. lia.
Qed.

(** X9.  A filter on a field of an M2O relation: the where-call names
    the column by the alias [addJoin] gave to the join of that relation,
    not by the name of the joined table. *)
Theorem where_column_uses_join_alias
    (field leaf collection : string) (st : JoinState)
    (m2oRelation : Relation) :
  find (isM2O (Some collection) field) relations = Some m2oRelation →
  nanoid (draws st) ≠ "" →
  ∃ join,
    In join (joins (addJoin relations nanoid [field; leaf] collection st))
    ∧ join_alias join = nanoid (draws st)
    ∧ join_table join = one_collection m2oRelation
    ∧ getWhereColumn relations
        (aliasMap (addJoin relations nanoid [field; leaf] collection st))
        [field; leaf] collection
      = join_alias join +:+ "." +:+ leaf.
Proof.
  intros Hfind Halias.
  set (alias := nanoid (draws st)) in *.
  exists {| join_alias := alias;
            join_table := one_collection m2oRelation;
            join_first := collection +:+ "." +:+ many_field m2oRelation;
            join_second := alias +:+ "." +:+ template (one_primary m2oRelation) |}.
  assert (Hlookup :
    aliasMap (addJoin relations nanoid [field; leaf] collection st)
      !! String.concat "+" [field; leaf] = Some alias).
  { unfold ApplyQuery.addJoin. cbn [ApplyQuery.followRelation].
    rewrite Hfind. fold alias.
    destruct (find (isM2O (one_collection m2oRelation) leaf) relations);
      cbn [aliasMap].
    - rewrite lookup_insert_ne by apply leaf_key_differs.
      apply lookup_insert_eq.
    - apply lookup_insert_eq. }
  split; [| split; [reflexivity | split; [reflexivity |]]].
  - unfold ApplyQuery.addJoin. cbn [ApplyQuery.followRelation].
    rewrite Hfind. fold alias.
    destruct (find (isM2O (one_collection m2oRelation) leaf) relations);
      cbn [joins]; rewrite !in_app_iff; simpl; auto.
  - unfold getWhereColumn. cbn [whereColumn].
    destruct (find (fun relation => isM2O (Some collection) field relation
                                    || isO2M (Some collection) field relation)
                relations) as [relation |] eqn:Heither.
    + rewrite Hlookup. cbn [orElse].
      apply String.eqb_neq in Halias. rewrite Halias.
      match goal with
      | |- context [find ?p relations] => destruct (find p relations)
      end; reflexivity.
    + exfalso. apply find_some in Hfind as [Hin Hm2o].
      apply (find_none _ _ Heither) in Hin. simpl in Hin.
      rewrite Hm2o in Hin. discriminate.
Qed.

(** *** Fuel *)

Lemma depth_item item items : In item items → depth item < depth (JArr items).
Proof.
  intros Hin. simpl. apply Nat.lt_succ_r.
  pose proof (proj1 (list_max_le (map depth items) _) (Nat.le_refl _)) as Hall.
  rewrite List.Forall_forall in Hall. apply Hall, in_map. assumption.
Qed.

Lemma depth_entry key value entries :
  In (key, value) entries → depth value < depth (JObj entries).
Proof.
  intros Hin. simpl. apply Nat.lt_succ_r.
  pose proof (proj1 (list_max_le (map (fun '(_, v) => depth v) entries) _)
                (Nat.le_refl _)) as Hall.
  rewrite List.Forall_forall in Hall.
  apply (Hall (depth value)).
  apply (in_map (fun '(_, v) => depth v) entries (key, value)). assumption.
Qed.

(** The entries of a value lie deeper than the value, but for the
    characters of a string. *)
Lemma objectEntries_depth filter entries key value :
  objectEntries filter = Return entries →
  In (key, value) entries →
  depth value < depth filter ∨ ∃ s, value = JStr s.
Proof.
  destruct filter as [| b | n | s | items | entries']; simpl;
    try discriminate; intros [= <-] Hin; try (destruct Hin).
  - right. unfold indexed, chars in Hin.
    apply list_elem_of_In, elem_of_lookup_imap in Hin as (i & c & [= _ ->] & Hc).
    rewrite list_lookup_fmap in Hc.
    destruct (list_ascii_of_string s !! i); simpl in Hc; [| discriminate].
    injection Hc as <-. eauto.
  - left. unfold indexed in Hin.
    apply list_elem_of_In, elem_of_lookup_imap in Hin as (i & c & [= _ ->] & Hc).
    apply depth_item, list_elem_of_In, list_elem_of_lookup. eauto.
  - left. eapply depth_entry; eauto.
Qed.

Lemma forEach_has_fuel {A S} (f : A → S → Outcome S) l :
  (∀ x, In x l → ∀ s, f x s ≠ OutOfFuel) →
  ∀ s, forEach f l s ≠ OutOfFuel.
Proof.
  induction l as [| x rest IH]; intros Hstep s; simpl; [discriminate |].
  destruct (f x s) as [s' | |] eqn:Hx; [| discriminate |].
  - apply IH. intros y Hy. apply Hstep. right. assumption.
  - exfalso. eapply Hstep; [left; reflexivity | eassumption].
Qed.

Lemma addJoins_has_fuel fuel :
  ∀ filter collection st,
    depth filter < fuel → addJoins fuel filter collection st ≠ OutOfFuel.
Proof.
  induction fuel as [| fuel IH]; intros filter collection st Hdepth; [lia |].
  simpl.
  destruct (objectEntries filter) as [entries |] eqn:Hentries; [| discriminate].
  apply forEach_has_fuel. intros [key value] Hin s.
  destruct (isLogicalKey key).
  - destruct (arrayItems _ value) as [subFilters |] eqn:Hitems; [| discriminate].
    destruct (if String.eqb key "_or" then someEmpty subFilters
              else Return false) as [[|] |]; [discriminate | | discriminate].
    apply forEach_has_fuel. intros subFilter Hsub s'. apply IH.
    destruct value; try discriminate. injection Hitems as ->.
    apply depth_item in Hsub.
    destruct (objectEntries_depth _ _ _ _ Hentries Hin) as [Hlt | [? [=]]].
    lia.
  - destruct (getFilterPath key value); [| discriminate].
    destruct (Nat.ltb 1 (length _)); discriminate.
Qed.

Lemma addWhereClauses_has_fuel fuel :
  ∀ aliases filter collection logical st,
    depth filter < fuel →
    addWhereClauses fuel aliases filter collection logical st ≠ OutOfFuel.
Proof.
  induction fuel as [| fuel IH];
    intros aliases filter collection logical st Hdepth; [lia |].
  simpl.
  destruct (objectEntries filter) as [entries |] eqn:Hentries; [| discriminate].
  apply forEach_has_fuel. intros [key value] Hin s.
  destruct (isLogicalKey key).
  - destruct (if String.eqb key "_or" then _ else Return false) as [[|] |];
      discriminate.
  - destruct (getFilterPath key value) as [filterPath |] eqn:Hpath;
      [| discriminate].
    destruct (getOperation key value) as [[filterOperator filterValue] |];
      [| discriminate].
    destruct (Nat.ltb 1 (length filterPath)) eqn:Hlen; [| discriminate].
    destruct (find _ relations) as [o2mRelation |]; [| discriminate].
    assert (Hvalue : depth value < fuel).
    { destruct (objectEntries_depth _ _ _ _ Hentries Hin) as [Hlt | [c ->]];
        [lia |].
      simpl in Hpath. injection Hpath as <-. discriminate. }
    unfold applyQueryWith, applyFilterWith.
    destruct (addJoins fuel value _ _) as [js | |] eqn:Hjoins;
      [| discriminate |].
    + destruct (addWhereClauses fuel (aliasMap js) value _ LAnd _)
        as [ws | |] eqn:Hwheres; [discriminate .. |].
      exfalso. revert Hwheres. apply IH. assumption.
    + exfalso. revert Hjoins. apply addJoins_has_fuel. assumption.
Qed.

(** X10.  The recursion of [applyFilter] is as deep as the filter: with a
    bound above the nesting depth of the filter the compilation comes to
    an end, with a builder or with a throw. *)
Theorem applyFilter_ends
    (fuel : nat) (rootQuery : QueryBuilder) (rootFilter : Filter)
    (collection : string) (draws0 : nat) :
  depth rootFilter < fuel →
  applyFilter fuel rootQuery rootFilter collection draws0 ≠ OutOfFuel.
Proof.
  intros Hdepth. unfold ApplyQuery.applyFilter, applyFilterWith.
  destruct (addJoins fuel rootFilter _ _) as [js | |] eqn:Hjoins;
    [| discriminate |].
  - destruct (addWhereClauses fuel (aliasMap js) rootFilter _ LAnd _)
      as [ws | |] eqn:Hwheres; [discriminate .. |].
    exfalso. revert Hwheres. apply addWhereClauses_has_fuel. assumption.
  - exfalso. revert Hjoins. apply addJoins_has_fuel. assumption.
Qed.

End ApplyFilter.

Lemma or_with_empty_alternative_is_skipped_witness :
  applyFilter blogRelations sampleNanoid 3 selectFromArticles
    (JObj [("_or", JArr anythingOrDraft);
           ("author", JObj [("name", JObj [("_eq", JStr "Rijk")])])])
    "articles" 0
  = applyFilter blogRelations sampleNanoid 3 selectFromArticles
      (JObj [("author", JObj [("name", JObj [("_eq", JStr "Rijk")])])])
      "articles" 0.
Proof.
  apply (proj2 (proj2 (or_with_empty_alternative_is_skipped blogRelations
                         sampleNanoid 2 ∅ "articles"
                         LAnd anythingOrDraft []
                         [("author",
                           JObj [("name", JObj [("_eq", JStr "Rijk")])])]
                         eq_refl))).
Defined.

Lemma addWhereClauses_only_appends_witness :
  ∃ added,
    wheres authorNamed = wheres noWheres ++ added
    ∧ ∀ existing,
        addWhereClauses blogRelations sampleNanoid 3 (aliasMap authorJoined)
          byAuthorName "articles" LAnd
          {| wheres := existing; drawn := drawn noWheres |}
        = Done {| wheres := existing ++ added; drawn := drawn authorNamed |}.
Proof.
  apply (addWhereClauses_only_appends blogRelations sampleNanoid 3
           (aliasMap authorJoined) byAuthorName "articles" LAnd noWheres
           authorNamed).
  vm_compute. reflexivity.
Defined.


Lemma addJoins_draws_an_alias_per_join_witness :
  ∃ added,
    joins authorJoined = joins noJoins ++ added
    ∧ draws authorJoined = draws noJoins + length added
    ∧ join_alias <$> added
      = sampleNanoid <$> seq (draws noJoins) (length added)
    ∧ ((∀ i j, sampleNanoid i = sampleNanoid j → i = j) →
       NoDup (join_alias <$> added)).
Proof.
  apply (addJoins_draws_an_alias_per_join blogRelations sampleNanoid 3
           byAuthorName "articles" noJoins authorJoined).
  vm_compute. reflexivity.
Defined.

Lemma where_column_uses_join_alias_witness :
  ∃ join,
    In join (joins (addJoin blogRelations sampleNanoid ["author"; "name"]
                      "articles" noJoins))
    ∧ join_alias join = sampleNanoid (draws noJoins)
    ∧ join_table join = Some "users"
    ∧ getWhereColumn blogRelations
        (aliasMap (addJoin blogRelations sampleNanoid ["author"; "name"]
                     "articles" noJoins))
        ["author"; "name"] "articles"
      = join_alias join +:+ "." +:+ "name".
Proof.
  apply (where_column_uses_join_alias blogRelations sampleNanoid "author"
           "name" "articles" noJoins
           (mkRelation "articles" "author" (Some "users") None (Some "id")));
    [reflexivity | discriminate].
Defined.

Lemma applyFilter_ends_witness :
  applyFilter blogRelations sampleNanoid 4 selectFromArticles byCommentBody
    "articles" 0 ≠ OutOfFuel.
Proof.
  apply (applyFilter_ends blogRelations sampleNanoid 4 selectFromArticles
           byCommentBody "articles" 0).
  vm_compute. lia.
Defined.

(** X11.  The statement loop keeps the statements that compile to some
    text, in their order, and puts the boolean of a statement in front of
    it unless it is the first that is kept: the joined parts never start
    and never end with a boolean. *)
Theorem whereSqlParts_joins_statements
    (compileStatement : WhereClause → string)
    (statements : list WhereClause) :
  whereSqlParts compileStatement statements []
  = joinedStatements compileStatement statements.
Proof.
  assert (Hrest : ∀ statements sqlParts,
    sqlParts ≠ [] →
    whereSqlParts compileStatement statements sqlParts
    = sqlParts ++
      flat_map (fun statement =>
                  [statementBool statement; compileStatement statement])
        (List.filter
           (fun statement =>
              negb (String.eqb (compileStatement statement) ""))
           statements)).
  { clear statements. induction statements as [| statement rest IH];
      intros sqlParts Hparts; simpl; [rewrite app_nil_r; reflexivity |].
    unfold pushStatement.
    destruct (String.eqb (compileStatement statement) ""); simpl;
      [apply IH; assumption |].
    destruct sqlParts as [| part parts]; [congruence |]. simpl.
    rewrite IH by discriminate. simpl. rewrite <- app_assoc. reflexivity. }
  unfold joinedStatements.
  induction statements as [| statement rest IH]; simpl; [reflexivity |].
  unfold pushStatement at 1.
  destruct (String.eqb (compileStatement statement) ""); simpl;
    [exact IH |].
  rewrite Hrest by discriminate. reflexivity.
Qed.

End ApplyFilterFacts.

(** ** More facts about the nested-collection loop of [runAst] *)
Module BatchFacts.

Import RunAst Pages Samples.

Section Run.

Variable Item : Type.
Variable Items : Type.
Variable RELATIONAL_BATCH_SIZE : Z.
Variable runAst : NestedCollectionNode → option (list Item).
Variable mergeWithParentItems :
  list Item → Items → NestedCollectionNode → Items.

Local Abbreviation whileHasMore :=
  (whileHasMore Item Items RELATIONAL_BATCH_SIZE runAst mergeWithParentItems).

(** X12.  With a batch size that is not positive no batch is ever short:
    as long as the fetches return items (none returns [null]) the loop
    does not end. *)
Theorem nonpositive_batch_size_never_ends
    (fuel : nat) (nestedNode : NestedCollectionNode) (batchCount : nat)
    (st : LoopState Items) :
  (RELATIONAL_BATCH_SIZE ≤ 0)%Z →
  (∀ node, runAst node ≠ None) →
  whileHasMore fuel nestedNode batchCount st = None.
Proof.
  intros Hsize Hnull.
  apply RunAstFacts.whileHasMore_goes_on. intros k _.
  unfold stopsAt, lastBatch.
  destruct (runAst _) as [l |] eqn:Hrun; [| exfalso; eapply Hnull; eauto].
  apply Z.ltb_ge. lia.
Qed.

End Run.

Lemma nonpositive_batch_size_never_ends_witness :
  whileHasMore string (list string) 0 fetchComments appendComments 7
    commentsNode 0 {| items := []; requested := [] |}
  = None.
Proof.
  apply (nonpositive_batch_size_never_ends string (list string) 0
           fetchComments appendComments 7 commentsNode 0);
    [lia |].
  intros node. unfold fetchComments.
  repeat match goal with
         | |- context [match ?x with _ => _ end] => destruct x
         end; discriminate.
Defined.

Section Pages.

Variable Item : Type.
Variable children : list Item.
Variable size : nat.
Variable nestedNode : NestedCollectionNode.

Local Abbreviation batchNode := (batchNode (Z.of_nat size) nestedNode).
Local Abbreviation page k := (take size (drop (k * size) children)).

Lemma pageOf_batchNode k : pageOf children (batchNode k) = Some (page k).
Proof.
  unfold pageOf. simpl.
  rewrite Nat2Z.id, <- Nat2Z.inj_mul, Nat2Z.id. reflexivity.
Qed.

Lemma mergedItems_pages count :
  ∀ first parents,
    mergedItems Item (list Item) (Z.of_nat size) (pageOf children) appendBatch
      nestedNode first count parents
    = parents ++ take (count * size) (drop (first * size) children).
Proof.
  induction count as [| count IH]; intros first parents;
    cbn [RunAst.mergedItems].
  - rewrite app_nil_r. reflexivity.
  - rewrite pageOf_batchNode, IH. unfold appendBatch.
    rewrite <- app_assoc. f_equal.
    replace (S first * size) with (first * size + size) by lia.
    rewrite <- drop_drop.
    replace (S count * size) with (size + count * size) by lia.
    rewrite take_take_drop. reflexivity.
Qed.

Lemma page_length k : length (page k) = size `min` (length children - k * size).
Proof. rewrite length_take, length_drop. reflexivity. Qed.

(** X13.  Paging through a collection loses and repeats nothing.  When
    the fetches of the loop are answered by a collection that holds
    [children], with a positive batch size, the loop ends after
    [length children / size + 1] fetches, and the batches that were
    merged are the children, each once and in their order.  When the
    number of children is a multiple of the batch size, the last fetch
    returns no item. *)
Theorem batches_cover_the_children (parents : list Item) (fuel : nat) :
  0 < size →
  length children / size < fuel →
  whileHasMore Item (list Item) (Z.of_nat size) (pageOf children) appendBatch
    fuel nestedNode 0 {| items := parents; requested := [] |}
  = Some {| items := parents ++ children;
            requested :=
              rev (batchNode <$> seq 0 (S (length children / size))) |}
  ∧ (length children `mod` size = 0 →
     pageOf children (batchNode (length children / size)) = Some []).
Proof.
  intros Hsize Hfuel.
  pose proof (Nat.div_mod_eq (length children) size) as Hdiv.
  pose proof (Nat.mod_upper_bound (length children) size) as Hmod.
  set (n := length children / size) in *.
  split.
  - rewrite (RunAstFacts.whileHasMore_stops Item (list Item) (Z.of_nat size)
               (pageOf children) appendBatch nestedNode n 0 _ fuel).
    + cbn [items requested]. rewrite mergedItems_pages, app_nil_r.
      rewrite drop_0, take_ge by nia. reflexivity.
    + intros k Hk. unfold stopsAt. rewrite pageOf_batchNode.
      unfold lastBatch. rewrite page_length. apply Z.ltb_ge. nia.
    + unfold stopsAt. rewrite pageOf_batchNode.
      unfold lastBatch. rewrite page_length. apply Z.ltb_lt. nia.
    + assumption.
  - intros Hzero. rewrite pageOf_batchNode. f_equal.
    apply length_zero_iff_nil. rewrite page_length. nia.
Qed.

End Pages.

Lemma batches_cover_the_children_witness :
  whileHasMore string (list string) 2 (pageOf ["hi"; "yo"; "ok"; "no"])
    appendBatch 3 commentsNode 0 {| items := []; requested := [] |}
  = Some {| items := [] ++ ["hi"; "yo"; "ok"; "no"];
            requested :=
              rev (batchNode 2 commentsNode <$> seq 0 3) |}
  ∧ (length ["hi"; "yo"; "ok"; "no"] `mod` 2 = 0 →
     pageOf ["hi"; "yo"; "ok"; "no"] (batchNode 2 commentsNode 2) = Some []).
Proof.
  apply (batches_cover_the_children string ["hi"; "yo"; "ok"; "no"] 2
           commentsNode [] 3); simpl; lia.
Defined.

End BatchFacts.

(** ** More facts about the driver *)
Module PoolFacts.

Import Driver Pool Samples MoreSamples.

Section WithCollaborators.

Variable convertToActualStatement : AbstractSqlClauses → Completion string.
Variable convertParameters : list Primitive → Completion (list Primitive).
Variable getExpander : gmap string (list string) → Completion (Row → Row).
Variable database : string → list Primitive → Completion CursorData.

Local Abbreviation convertStatement :=
  (convertStatement convertToActualStatement convertParameters).
Local Abbreviation queryDatabase :=
  (queryDatabase convertToActualStatement convertParameters getExpander
     database).

(** X14.  [queryDatabase] rejects with one of three messages, whatever
    the error behind it was.  When the conversion of the statement fails,
    the pool and the record of statements are untouched; when the
    connection or the cursor fails, no statement is recorded as sent;
    when the expander fails, the statement has been handed to the
    client. *)
Theorem queryDatabase_rejections
    (abstractSql : AbstractSqlQuery) (w w' : World) (e : Exception) :
  queryDatabase abstractSql w = (Throw e, w') →
  (e = Error "Failed to convert the query the database: "
   ∧ (∃ cause, convertStatement abstractSql = Throw cause) ∧ w' = w)
  ∨ (e = Error "Failed to query the database: " ∧ log w' = log w)
  ∨ (e = Error "Failed to expand the database result: "
     ∧ ∃ sql, convertStatement abstractSql = Return sql
              ∧ log w' = Executed (nextClient w) (statement sql)
                           (parameters sql) :: log w).
Proof.
  unfold Driver.queryDatabase.
  destruct (convertStatement abstractSql) as [sql |] eqn:Hsql.
  - unfold bind, getDataFromSource, connect.
    destruct (reachable w).
    + destruct (database _ _) as [data |].
      * destruct (getExpander _); [discriminate |].
        intros [= <- <-]. right. right. split; [reflexivity |].
        exists sql. auto.
      * intros [= <- <-]. right. left. auto.
    + intros [= <- <-]. right. left. auto.
  - unfold Driver.convertStatement in Hsql. intros [= <- <-]. left.
    split; [| split; [eauto | reflexivity]].
    destruct (convertToActualStatement _); [| congruence].
    destruct (convertParameters _); congruence.
Qed.

(** X15.  Taking a client and giving it back leaves the pool as it was.
    On a pool whose clients are numbered as they are handed out, the
    stream [queryDatabase] returns holds one new client; when the stream
    is left, whichever way, exactly that client goes back: the clients
    that were checked out before are the ones checked out after. *)
Theorem queryDatabase_gives_back_its_client
    (abstractSql : AbstractSqlQuery) (w w' : World) (stream : RowStream)
    (exit : Exit) :
  numbered w →
  queryDatabase abstractSql w = (Return stream, w') →
  leased w' = nextClient w :: leased w
  ∧ leased (finish exit stream w') = leased w
  ∧ numbered (finish exit stream w').
Proof.
  intros Hnumbered. unfold Driver.queryDatabase.
  destruct (convertStatement abstractSql) as [sql |]; [| discriminate].
  unfold bind, getDataFromSource, connect.
  destruct (reachable w); [| discriminate].
  destruct (database _ _) as [data |]; [| discriminate].
  destruct (getExpander _) as [expander |]; [| discriminate].
  intros [= <- <-].
  assert (Hfresh : List.filter (fun c => negb (Nat.eqb c (nextClient w)))
                     (leased w) = leased w).
  { apply forallb_filter_id, forallb_forall. intros c Hc.
    apply Hnumbered in Hc. apply negb_true_iff, Nat.eqb_neq. lia. }
  split; [reflexivity |].
  match goal with
  | |- leased (finish exit ?s ?w1) = _ ∧ _ =>
      assert (Hleased : leased (finish exit s w1) = leased w);
      [| assert (Hnext : nextClient (finish exit s w1) = S (nextClient w)) ]
  end.
  - destruct exit; cbn; rewrite Nat.eqb_refl; cbn; rewrite ?Hfresh;
      reflexivity.
  - destruct exit; reflexivity.
  - split; [assumption |].
    intros client Hin. rewrite Hleased in Hin. rewrite Hnext.
    apply Hnumbered in Hin. lia.
Qed.

End WithCollaborators.

Lemma queryDatabase_rejections_witness :
  (Error "Failed to expand the database result: "
   = Error "Failed to convert the query the database: "
   ∧ (∃ cause,
        convertStatement sampleStatement sampleParameters articlesOnly
        = Throw cause)
   ∧ afterArticles = freshWorld)
  ∨ (Error "Failed to expand the database result: "
     = Error "Failed to query the database: "
     ∧ log afterArticles = log freshWorld)
  ∨ (Error "Failed to expand the database result: "
     = Error "Failed to expand the database result: "
     ∧ ∃ sql,
         convertStatement sampleStatement sampleParameters articlesOnly
         = Return sql
         ∧ log afterArticles
           = Executed (nextClient freshWorld) (statement sql) (parameters sql)
             :: log freshWorld).
Proof.
  apply (queryDatabase_rejections sampleStatement sampleParameters
           failingExpander sampleDatabase articlesOnly freshWorld
           afterArticles).
  reflexivity.
Defined.

Lemma queryDatabase_gives_back_its_client_witness :
  leased afterArticles = nextClient freshWorld :: leased freshWorld
  ∧ leased (finish ClosedByConsumer articlesStream afterArticles)
    = leased freshWorld
  ∧ numbered (finish ClosedByConsumer articlesStream afterArticles).
Proof.
  apply (queryDatabase_gives_back_its_client sampleStatement sampleParameters
           sampleExpander sampleDatabase articlesOnly freshWorld afterArticles
           articlesStream ClosedByConsumer).
  - intros client [].
  - vm_compute. reflexivity.
Defined.

End PoolFacts.

(** ** Facts about [applyQuery] *)
Module ApplyQueryModifierFacts.

Import ApplyQuery ApplyQueryModifiers Samples MoreSamples.

(** X16.  Which offset and which limit a query ends with.  A page and
    a limit that both count as true decide the offset, whatever offset
    the query carries; without them an offset that counts as true is
    taken, and any other offset (zero, or none) leaves the builder's
    offset as it was; [single] sets the limit to one, whatever limit the
    query carries; without it a limit is taken when it is a number. *)
Theorem applyModifiers_offset_and_limit
    (times : JsValue → JsValue → JsValue) (minusOne : JsValue → JsValue)
    (collection : string) (m : Modifiers) (query : Query) :
  (∀ pageValue limitValue,
     page query = Some pageValue →
     limit query = Some limitValue →
     truthy pageValue && truthy limitValue = true →
     skipped (applyModifiers times minusOne collection m query)
     = Some (times limitValue (minusOne pageValue)))
  ∧ (given (page query) && given (limit query) = false →
     given (offset query) = true →
     skipped (applyModifiers times minusOne collection m query)
     = offset query)
  ∧ (given (page query) && given (limit query) = false →
     given (offset query) = false →
     skipped (applyModifiers times minusOne collection m query) = skipped m)
  ∧ (single query = true →
     limited (applyModifiers times minusOne collection m query)
     = Some (JNum "1")
     ∧ first (applyModifiers times minusOne collection m query) = true)
  ∧ (single query = false →
     limited (applyModifiers times minusOne collection m query)
     = if isNumber (limit query) then limit query else limited m).
Proof.
  unfold applyModifiers.
  split; [| split; [| split; [| split]]].
  - intros pageValue limitValue -> -> ->.
    destruct (single query); reflexivity.
  - intros Hpage Hoffset. rewrite Hoffset.
    destruct (page query) as [pageValue |], (limit query) as [limitValue |];
      simpl in Hpage; rewrite ?Hpage, ?andb_false_r;
      destruct (single query); reflexivity.
  - intros Hpage Hoffset. rewrite Hoffset.
    destruct (page query) as [pageValue |], (limit query) as [limitValue |];
      simpl in Hpage; rewrite ?Hpage, ?andb_false_r;
      destruct (sort query), (single query);
      try destruct (isNumber _); reflexivity.
  - intros ->. split; reflexivity.
  - intros ->.
    destruct (page query) as [pageValue |], (limit query) as [limitValue |];
      try destruct (truthy pageValue && truthy limitValue);
      destruct (given (offset query)), (sort query);
      try destruct (isNumber _); reflexivity.
Qed.


End ApplyQueryModifierFacts.



(** ** Facts about compiling a filter twice *)
Module DrawFacts.

Import ApplyQuery Draws Samples.

Lemma forEach_alike {A S} (R : S → S → Prop) (f1 f2 : A → S → Outcome S) l :
  (∀ x s1 s2, R s1 s2 → alike R (f1 x s1) (f2 x s2)) →
  ∀ s1 s2, R s1 s2 → alike R (forEach f1 l s1) (forEach f2 l s2).
Proof.
  intros Hstep. induction l as [| x rest IH]; intros s1 s2 HR; simpl;
    [exact HR |].
  specialize (Hstep x s1 s2 HR).
  destruct (f1 x s1), (f2 x s2); simpl in Hstep; try contradiction;
    simpl; auto.
Qed.

Lemma sameDraws_next k1 k2 d1 d2 :
  sameDraws k1 k2 d1 d2 → sameDraws k1 k2 (S d1) (S d2).
Proof. intros (n & -> & ->). exists (S n). lia. Qed.

Lemma sameDraws_start k1 k2 : sameDraws k1 k2 k1 k2.
Proof. exists 0. lia. Qed.

Section Twice.

Variable relations : list Relation.
Variables nanoid1 nanoid2 : nat → string.
Variables k1 k2 : nat.
Hypothesis same : sameIdentifiers nanoid1 nanoid2 k1 k2.

Local Abbreviation sameDraws := (sameDraws k1 k2).
Local Abbreviation alikeJoins := (alikeJoins k1 k2).
Local Abbreviation alikeWheres := (alikeWheres k1 k2).

Lemma same_draw d1 d2 : sameDraws d1 d2 → nanoid1 d1 = nanoid2 d2.
Proof. intros (n & -> & ->). apply same. Qed.

Lemma followRelation_alike pathParts :
  ∀ parentCollection parentAlias s1 s2,
    alikeJoins s1 s2 →
    alikeJoins
      (followRelation relations nanoid1 pathParts parentCollection parentAlias
         s1)
      (followRelation relations nanoid2 pathParts parentCollection parentAlias
         s2).
Proof.
  induction pathParts as [| field rest IH];
    intros parentCollection parentAlias s1 s2 Halike; simpl; [assumption |].
  destruct (find _ relations) as [m2oRelation |]; [| assumption].
  destruct Halike as (Hmap & Hjoins & Hdraws).
  pose proof (same_draw _ _ Hdraws) as Halias.
  rewrite Hmap, Hjoins, Halias.
  destruct rest as [| next rest].
  - split; [reflexivity |]. split; [reflexivity |].
    apply sameDraws_next. assumption.
  - apply IH. split; [reflexivity |]. split; [reflexivity |].
    apply sameDraws_next. assumption.
Qed.

Lemma addJoins_alike fuel :
  ∀ filter collection s1 s2,
    alikeJoins s1 s2 →
    alike alikeJoins (addJoins relations nanoid1 fuel filter collection s1)
      (addJoins relations nanoid2 fuel filter collection s2).
Proof.
  induction fuel as [| fuel IH]; intros filter collection s1 s2 Halike; simpl;
    [exact I |].
  destruct (objectEntries filter) as [entries |]; [| reflexivity].
  apply forEach_alike; [| assumption].
  intros [key value] t1 t2 Ht.
  destruct (isLogicalKey key).
  - destruct (arrayItems _ value) as [subFilters |]; [| reflexivity].
    destruct (if String.eqb key "_or" then someEmpty subFilters
              else Return false) as [[|] |]; [exact Ht | | reflexivity].
    apply forEach_alike; [| assumption].
    intros subFilter u1 u2 Hu. apply IH. assumption.
  - destruct (getFilterPath key value) as [filterPath |]; [| reflexivity].
    destruct (Nat.ltb 1 (length filterPath)); [| exact Ht].
    apply followRelation_alike. assumption.
Qed.

Lemma applyFilterWith_alike addWhere1 addWhere2 fuel rootQuery rootFilter
    collection d1 d2 :
  (∀ aliases filter collection logical s1 s2,
     alikeWheres s1 s2 →
     alike alikeWheres (addWhere1 aliases filter collection logical s1)
       (addWhere2 aliases filter collection logical s2)) →
  sameDraws d1 d2 →
  alike (alikeResults k1 k2)
    (applyFilterWith relations nanoid1 addWhere1 fuel rootQuery rootFilter
       collection d1)
    (applyFilterWith relations nanoid2 addWhere2 fuel rootQuery rootFilter
       collection d2).
Proof.
  intros HaddWhere Hdraws. unfold applyFilterWith.
  assert (Hjoins :
    alike alikeJoins
      (addJoins relations nanoid1 fuel rootFilter collection
         {| aliasMap := ∅; joins := joined rootQuery; draws := d1 |})
      (addJoins relations nanoid2 fuel rootFilter collection
         {| aliasMap := ∅; joins := joined rootQuery; draws := d2 |})).
  { apply addJoins_alike. repeat split. assumption. }
  destruct (addJoins relations nanoid1 _ _ _ _) as [js1 | |],
           (addJoins relations nanoid2 _ _ _ _) as [js2 | |];
    simpl in Hjoins; try contradiction; try assumption.
  destruct Hjoins as (Hmap & Hjoined & Hafter).
  rewrite Hmap, Hjoined.
  assert (Hwheres :
    alike alikeWheres
      (addWhere1 (aliasMap js2) rootFilter collection LAnd
         {| wheres := conditions rootQuery; drawn := draws js1 |})
      (addWhere2 (aliasMap js2) rootFilter collection LAnd
         {| wheres := conditions rootQuery; drawn := draws js2 |})).
  { apply HaddWhere. split; [reflexivity | assumption]. }
  destruct (addWhere1 _ _ _ _ _) as [ws1 | |],
           (addWhere2 _ _ _ _ _) as [ws2 | |];
    simpl in Hwheres; try contradiction; try assumption.
  destruct Hwheres as (Hcalls & Hdrawn).
  simpl. unfold alikeResults. simpl. rewrite Hcalls. split; [reflexivity |].
  assumption.
Qed.

Lemma addWhereClauses_alike fuel :
  ∀ aliases filter collection logical s1 s2,
    alikeWheres s1 s2 →
    alike alikeWheres
      (addWhereClauses relations nanoid1 fuel aliases filter collection
         logical s1)
      (addWhereClauses relations nanoid2 fuel aliases filter collection
         logical s2).
Proof.
  induction fuel as [| fuel IH];
    intros aliases filter collection logical s1 s2 Halike; simpl; [exact I |].
  destruct (objectEntries filter) as [entries |]; [| reflexivity].
  apply forEach_alike; [| assumption].
  intros [key value] t1 t2 (Hcalls & Hdrawn).
  destruct (isLogicalKey key).
  - destruct (if String.eqb key "_or" then _ else Return false)
      as [[|] |]; [split; assumption | | reflexivity].
    simpl. rewrite Hcalls. split; [reflexivity | assumption].
  - destruct (getFilterPath key value) as [filterPath |]; [| reflexivity].
    destruct (getOperation key value) as [[filterOperator filterValue] |];
      [| reflexivity].
    destruct (Nat.ltb 1 (length filterPath)).
    + destruct (find _ relations) as [o2mRelation |].
      * unfold applyQueryWith.
        pose proof (applyFilterWith_alike
                      (addWhereClauses relations nanoid1 fuel)
                      (addWhereClauses relations nanoid2 fuel) fuel
                      (mkBuilder [many_field o2mRelation]
                         (Some (many_collection o2mRelation)) [] [])
                      value (many_collection o2mRelation) (drawn t1)
                      (drawn t2) IH Hdrawn) as Hsub.
        destruct (applyFilterWith relations nanoid1 _ _ _ _ _ _)
          as [[b1 d1] | |],
          (applyFilterWith relations nanoid2 _ _ _ _ _ _) as [[b2 d2] | |];
          simpl in Hsub; try contradiction; try assumption.
        destruct Hsub as [Hb Hd]. simpl in Hb, Hd. subst b2.
        simpl. rewrite Hcalls. split; [reflexivity | assumption].
      * simpl. unfold applyFilterToQuery. rewrite Hcalls.
        split; [reflexivity | assumption].
    + simpl. unfold applyFilterToQuery. rewrite Hcalls.
      split; [reflexivity | assumption].
Qed.

Lemma invoke_alike fuel callback d1 d2 :
  sameDraws d1 d2 →
  alike alikeWheres (invoke relations nanoid1 fuel callback d1)
    (invoke relations nanoid2 fuel callback d2).
Proof.
  intros Hdraws.
  destruct callback as [key | key | value collection key aliases]; simpl;
    try (split; [reflexivity | assumption]).
  destruct (arrayItems _ value) as [subFilters |]; [| reflexivity].
  apply forEach_alike; [| split; [reflexivity | assumption]].
  intros subFilter s1 s2 Halike. apply addWhereClauses_alike. assumption.
Qed.

Lemma compileEach_alike step1 step2 calls :
  (∀ call d1 d2,
     sameDraws d1 d2 →
     alike (alikeResults k1 k2) (step1 call d1) (step2 call d2)) →
  ∀ d1 d2,
    sameDraws d1 d2 →
    alike (alikeResults k1 k2) (compileEach step1 calls d1)
      (compileEach step2 calls d2).
Proof.
  intros Hstep. induction calls as [| call rest IH]; intros d1 d2 Hdraws;
    simpl; [split; [reflexivity | assumption] |].
  specialize (Hstep call d1 d2 Hdraws).
  destruct (step1 call d1) as [[c1 e1] | |], (step2 call d2) as [[c2 e2] | |];
    simpl in Hstep; try contradiction; try assumption.
  destruct Hstep as [Hc He]. simpl in Hc, He. subst c2.
  specialize (IH e1 e2 He).
  destruct (compileEach step1 rest e1) as [[cs1 f1] | |],
           (compileEach step2 rest e2) as [[cs2 f2] | |];
    simpl in IH; try contradiction; try assumption.
  destruct IH as [Hcs Hf]. simpl in Hcs, Hf. subst cs2.
  split; [reflexivity | assumption].
Qed.

Lemma compile_alike fuel :
  ∀ call d1 d2,
    sameDraws d1 d2 →
    alike (alikeResults k1 k2) (compile relations nanoid1 fuel call d1)
      (compile relations nanoid2 fuel call d2).
Proof.
  induction fuel as [| fuel IH]; intros call d1 d2 Hdraws; simpl; [exact I |].
  destruct call as [accessor method args | accessor method callback
                   | accessor method column subQuery].
  - split; [reflexivity | assumption].
  - pose proof (invoke_alike fuel callback d1 d2 Hdraws) as Hinvoke.
    destruct (invoke relations nanoid1 fuel callback d1) as [s1 | |],
             (invoke relations nanoid2 fuel callback d2) as [s2 | |];
      simpl in Hinvoke; try contradiction; try assumption.
    destruct Hinvoke as [Hcalls Hdrawn]. rewrite Hcalls.
    pose proof (compileEach_alike _ _ (wheres s2) IH _ _ Hdrawn) as Heach.
    destruct (compileEach (compile relations nanoid1 fuel) _ _)
      as [[cs1 f1] | |],
      (compileEach (compile relations nanoid2 fuel) _ _) as [[cs2 f2] | |];
      simpl in Heach; try contradiction; try assumption.
    destruct Heach as [Hcs Hf]. simpl in Hcs, Hf. subst cs2.
    split; [reflexivity | assumption].
  - pose proof (compileEach_alike _ _ (conditions subQuery) IH _ _ Hdraws)
      as Heach.
    destruct (compileEach (compile relations nanoid1 fuel) _ _)
      as [[cs1 f1] | |],
      (compileEach (compile relations nanoid2 fuel) _ _) as [[cs2 f2] | |];
      simpl in Heach; try contradiction; try assumption.
    destruct Heach as [Hcs Hf]. simpl in Hcs, Hf. subst cs2.
    split; [reflexivity | assumption].
Qed.


End Twice.



End DrawFacts.
